(** * LiteraVerse service worker (sw.js): caching, background sync, push

    A shallow embedding of the event handlers of [sw.js] and the proofs of
    the properties its specification states about them.

    The worker runs against four platform facilities, which are modelled as
    explicit state (record [World]):
    - CacheStorage ([caches]): the named caches in creation order, each a
      finite map from absolute URL to the stored [Response];
    - the IndexedDB object store ['pending_sync'] (keyPath ['id']), as the
      list of its records in key order;
    - the network, an oracle [Network] asked once per [fetch] call, whose
      calls are logged in [net_log];
    - the notification facility, as the list of display requests made
      through [showNotification].

    Promises are computations in the monad [Js]: a promise chain is a
    sequence of binds, a rejection is the exceptional outcome, [.catch] and
    [try/catch] are handlers.

    Besides the worker the file embeds the code of the page that works on
    the same stores or the same pattern: UserManager (localStorage, the
    network and navigator.onLine, record [Page] and monad [Script]), the
    cache cleanup of script.js, and cachedFetch of BookManager. *)

From Stdlib Require Import ZArith Ascii String List Lia.
From stdpp Require Import base option list gmap strings pretty.

Local Open Scope string_scope.
Local Open Scope Z_scope.
Local Open Scope list_scope.

(** ** JavaScript values that cross the worker *)

Inductive JsError : Type :=
  | TypeError
  | SyntaxError.

(** How a promise settles (or how a synchronous block completes). *)
Inductive outcome (A : Type) : Type :=
  | Resolved (a : A)
  | Rejected (e : JsError).
Arguments Resolved {A} a.
Arguments Rejected {A} e.

(** A value that JSON can denote. [None] of type [option Json] stands for
    JavaScript's [undefined]. *)
#[warnings="-register-all"]
Inductive Json : Type :=
  | JNull
  | JBool (b : bool)
  | JNum (n : Z)            (* numbers, kept to the integers *)
  | JStr (s : string)
  | JArr (items : list Json)
  | JObj (fields : list (string * Json)).

(** [Headers]: names are normalised to lower case by the platform, so the
    list holds lower-case names and [get] is a plain lookup. *)
Abbreviation Headers := (list (string * string)).

Fixpoint headers_get (name : string) (h : Headers) : option string :=
  match h with
  | [] => None
  | (n, v) :: rest => if String.eqb n name then Some v else headers_get name rest
  end.

Inductive Body : Type :=
  | Text (s : string)       (* the characters themselves *)
  | JsonText (j : Json).    (* the text JSON.stringify gives for [j] *)

Record Request : Type := mkRequest {
  method : string;
  url : string;                 (* absolute *)
  req_headers : Headers;
  req_body : option Body
}.

Inductive ResponseType : Type :=
  | basic | cors | default | error | opaque | opaqueredirect.

Record Response : Type := mkResponse {
  status : Z;
  statusText : string;
  rtype : ResponseType;
  resp_headers : Headers;
  resp_body : Body
}.

Global Instance ResponseType_eq_dec : EqDecision ResponseType.
Proof. solve_decision. Defined.

(** ** String helpers of the source *)

Definition startsWith (s pre : string) : bool := String.prefix pre s.

(** [hay.includes(needle)] *)
Fixpoint includes (hay needle : string) : bool :=
  String.prefix needle hay ||
  match hay with
  | EmptyString => false
  | String _ rest => includes rest needle
  end.

(** ** CacheStorage *)

Abbreviation Cache := (gmap string Response).
Abbreviation CacheStorage := (list (string * Cache)).

(** [caches.match(url)]: the first cache, in creation order, holding the URL. *)
Fixpoint storage_match (u : string) (st : CacheStorage) : option Response :=
  match st with
  | [] => None
  | (_, c) :: rest =>
      match c !! u with
      | Some r => Some r
      | None => storage_match u rest
      end
  end.

Fixpoint storage_lookup (name : string) (st : CacheStorage) : option Cache :=
  match st with
  | [] => None
  | (n, c) :: rest => if String.eqb n name then Some c else storage_lookup name rest
  end.

(** [caches.open(name)] creates the cache when there is none of that name. *)
Definition storage_open (name : string) (st : CacheStorage) : CacheStorage :=
  match storage_lookup name st with
  | Some _ => st
  | None => st ++ [(name, ∅)]
  end.

(** [cache.put(url, r)] on the cache called [name]. *)
Fixpoint storage_put (name u : string) (r : Response) (st : CacheStorage)
  : CacheStorage :=
  match st with
  | [] => []
  | (n, c) :: rest =>
      if String.eqb n name then (n, <[u := r]> c) :: rest
      else (n, c) :: storage_put name u r rest
  end.

(** [caches.delete(name)] *)
Fixpoint storage_delete (name : string) (st : CacheStorage) : CacheStorage :=
  match st with
  | [] => []
  | (n, c) :: rest =>
      if String.eqb n name then storage_delete name rest
      else (n, c) :: storage_delete name rest
  end.

(** [caches.keys()] *)
Definition storage_keys (st : CacheStorage) : list string := map fst st.

(** ** The object store 'pending_sync' *)

Record SyncItem : Type := mkSyncItem {
  id : Z;
  item_url : string;
  data : option Json
}.

(** ** Notifications *)

Record NotificationData : Type := mkNotificationData {
  dateOfArrival : Z;
  primaryKey : option Json
}.

Record NotificationOptions : Type := mkOptions {
  opt_body : option Json;
  icon : string;
  badge : string;
  vibrate : list Z;
  opt_data : NotificationData;
  actions : Json
}.

(** One call of [self.registration.showNotification(title, options)]. *)
Record DisplayRequest : Type := mkDisplayRequest {
  title : option Json;
  options : NotificationOptions
}.

(** ** The world the handlers run in *)

Record World : Type := mkWorld {
  caches : CacheStorage;
  pending_sync : list SyncItem;
  net_log : list Request;               (* every fetch issued, oldest first *)
  display_requests : list DisplayRequest;
  console : list JsError;               (* console.error calls *)
  clock : Z;                            (* Date.now() *)
  skipped_waiting : bool;
  clients_claimed : bool
}.

Definition with_caches (st : CacheStorage) (w : World) : World :=
  mkWorld st (pending_sync w) (net_log w) (display_requests w) (console w)
          (clock w) (skipped_waiting w) (clients_claimed w).

Definition with_pending_sync (q : list SyncItem) (w : World) : World :=
  mkWorld (caches w) q (net_log w) (display_requests w) (console w)
          (clock w) (skipped_waiting w) (clients_claimed w).

Definition with_net_log (l : list Request) (w : World) : World :=
  mkWorld (caches w) (pending_sync w) l (display_requests w) (console w)
          (clock w) (skipped_waiting w) (clients_claimed w).

Definition with_display_requests (d : list DisplayRequest) (w : World) : World :=
  mkWorld (caches w) (pending_sync w) (net_log w) d (console w)
          (clock w) (skipped_waiting w) (clients_claimed w).

Definition with_console (c : list JsError) (w : World) : World :=
  mkWorld (caches w) (pending_sync w) (net_log w) (display_requests w) c
          (clock w) (skipped_waiting w) (clients_claimed w).

Definition with_skipped_waiting (b : bool) (w : World) : World :=
  mkWorld (caches w) (pending_sync w) (net_log w) (display_requests w)
          (console w) (clock w) b (clients_claimed w).

Definition with_clients_claimed (b : bool) (w : World) : World :=
  mkWorld (caches w) (pending_sync w) (net_log w) (display_requests w)
          (console w) (clock w) (skipped_waiting w) b.

(** ** Promises as a state-and-exception monad *)

Definition Js (A : Type) : Type := World -> outcome A * World.

Definition ret {A} (a : A) : Js A := fun w => (Resolved a, w).

Definition throw {A} (e : JsError) : Js A := fun w => (Rejected e, w).

(** [p.then(k)] / [await p; k] *)
Definition bind {A B} (p : Js A) (k : A -> Js B) : Js B :=
  fun w =>
    match p w with
    | (Resolved a, w') => k a w'
    | (Rejected e, w') => (Rejected e, w')
    end.

(** [p.catch(h)] / [try { p } catch (e) { h e }] *)
Definition catch {A} (p : Js A) (h : JsError -> Js A) : Js A :=
  fun w =>
    match p w with
    | (Resolved a, w') => (Resolved a, w')
    | (Rejected e, w') => h e w'
    end.

Definition modify (f : World -> World) : Js unit := fun w => (Resolved tt, f w).

Definition gets {A} (f : World -> A) : Js A := fun w => (Resolved (f w), w).

Declare Scope js_scope.
Delimit Scope js_scope with js.
Notation "'let*' x ':=' p 'in' k" := (bind p (fun x => k))
  (at level 10, x name, p at level 100, k at level 200) : js_scope.
Notation "'run' p 'in' k" := (bind p (fun _ => k))
  (at level 10, p at level 100, k at level 200) : js_scope.
Local Open Scope js_scope.

(** What an event handler did with its event. *)
Inductive HandlerResult (A : Type) : Type :=
  | Returned                   (* returned; no promise handed to the event *)
  | Threw (e : JsError)        (* an exception left the handler *)
  | Settled (o : outcome A).   (* event.waitUntil / event.respondWith got a
                                  promise, which settled as [o] *)
Arguments Returned {A}.
Arguments Threw {A} e.
Arguments Settled {A} o.

(** [event.waitUntil(p)] and [event.respondWith(p)] *)
Definition hand_over {A} (p : Js A) : World -> HandlerResult A * World :=
  fun w => let '(o, w') := p w in (Settled o, w').

(** ** Constants of the worker *)

Definition CACHE_NAME : string := "literaverse-v3".

Definition urlsToCache : list string :=
  [ "/";
    "/index.html";
    "/styles.css";
    "/script.js";
    "/reader.html";
    "/dashboard.html";
    "/bookshelf.html";
    "/community.html";
    "/profile.html";
    "/manifest.json";
    "/assets/icons/icon-192x192.png";
    "/assets/icons/icon-512x512.png" ].

(** The network: what the [t]-th fetch of the run yields for a request.
    A fetch resolves with whatever response the server sent, whatever its
    status; it rejects only when no response could be obtained. *)
Definition Network : Type := nat -> Request -> outcome Response.

Section Worker.

(** The origin the worker is served from; the source's URLs are paths,
    which the platform resolves against it. *)
Variable origin : string.
Variable net : Network.

Definition absolute (path : string) : string := origin +:+ path.

Definition fetch (rq : Request) : Js Response :=
  fun w => (net (length (net_log w)) rq, with_net_log (net_log w ++ [rq]) w).

Definition caches_match (u : string) : Js (option Response) :=
  gets (fun w => storage_match u (caches w)).

Definition caches_open (name : string) : Js unit :=
  modify (fun w => with_caches (storage_open name (caches w)) w).

Definition cache_put (name u : string) (r : Response) : Js unit :=
  modify (fun w => with_caches (storage_put name u r (caches w)) w).

(** *** fetch *)

Record FetchEvent : Type := mkFetchEvent { request : Request }.

Definition offline_response : Response :=
  mkResponse 503 "Service Unavailable" default
             [("content-type", "text/plain")] (Text "You are offline").

(** The test that guards the cache write. A fetch that resolves always
    yields a Response object, so the source's [!response] is never true. *)
Definition is_valid_response (response : Response) : bool :=
  (status response =? 200) && bool_decide (rtype response = basic).

(** [fetch(fetchRequest).then(...).catch(...)]. The cache write of lines
    71-74 is started inside the then-callback and not waited for: nothing
    returns, awaits or hands its promise to waitUntil. [network_branch]
    yields the world in which that write has landed; the moment at which
    the promise settles, with the write still to run, is
    [network_branch_settles] below. *)
Definition network_branch (event : FetchEvent) : Js (option Response) :=
  catch
    (let* response := fetch (request event) in
     if negb (is_valid_response response) then ret (Some response)
     else
       run caches_open CACHE_NAME in
       run cache_put CACHE_NAME (url (request event)) response in
       ret (Some response))
    (fun _ =>
       match headers_get "accept" (req_headers (request event)) with
       | None => throw TypeError      (* null.includes(...) *)
       | Some accept =>
           if includes accept "text/html"
           then caches_match (absolute "/offline.html")
           else ret (Some offline_response)
       end).

Definition on_fetch (event : FetchEvent)
  : World -> HandlerResult (option Response) * World :=
  fun w =>
    if negb (String.eqb (method (request event)) "GET") then (Returned, w)
    else if startsWith (url (request event)) "chrome-extension://"
    then (Returned, w)
    else
      hand_over
        (let* response := caches_match (url (request event)) in
         match response with
         | Some r => ret (Some r)
         | None => network_branch event
         end) w.

(** The write of lines 71-74 as a task of its own:
    [caches.open(CACHE_NAME).then(cache => { cache.put(event.request,
    responseToCache); })]. *)
Definition cache_write (event : FetchEvent) (response : Response) : Js unit :=
  run caches_open CACHE_NAME in
  cache_put CACHE_NAME (url (request event)) response.

(** [network_branch] up to the moment its promise settles. The callback of
    line 61 starts the write and returns the response at once (line 76), so
    the promise settles in the world the network call left; the write is
    handed back next to the response, as the task that is still to run. *)
Definition network_branch_settles (event : FetchEvent)
  : Js (option Response * option (Js unit)) :=
  catch
    (let* response := fetch (request event) in
     if negb (is_valid_response response) then ret (Some response, None)
     else ret (Some response, Some (cache_write event response)))
    (fun _ =>
       match headers_get "accept" (req_headers (request event)) with
       | None => throw TypeError      (* null.includes(...) *)
       | Some accept =>
           if includes accept "text/html"
           then
             let* response := caches_match (absolute "/offline.html") in
             ret (response, None)
           else ret (Some offline_response, None)
       end).

(** The fetch handler up to the moment the promise given to respondWith
    settles. *)
Definition on_fetch_settles (event : FetchEvent)
  : World -> HandlerResult (option Response * option (Js unit)) * World :=
  fun w =>
    if negb (String.eqb (method (request event)) "GET") then (Returned, w)
    else if startsWith (url (request event)) "chrome-extension://"
    then (Returned, w)
    else
      hand_over
        (let* response := caches_match (url (request event)) in
         match response with
         | Some r => ret (Some r, None)
         | None => network_branch_settles event
         end) w.

(** The world once the task a handler left behind, if any, has run. *)
Definition landed {A : Type}
    (result : HandlerResult (A * option (Js unit)) * World) : World :=
  match result with
  | (Settled (Resolved (_, Some task)), w) => snd (task w)
  | (_, w) => w
  end.

(** What the page is given, the task left behind forgotten. *)
Definition handed {A : Type}
    (result : HandlerResult (A * option (Js unit))) : HandlerResult A :=
  match result with
  | Returned => Returned
  | Threw e => Threw e
  | Settled (Resolved (a, _)) => Settled (Resolved a)
  | Settled (Rejected e) => Settled (Rejected e)
  end.

(** *** install *)

Definition get_request (u : string) : Request := mkRequest "GET" u [] None.

(** [response.ok] *)
Definition ok (r : Response) : bool := (200 <=? status r) && (status r <=? 299).

(** [cache.addAll(urls)] fetches every URL and stores the responses only
    when all of them arrived with an ok status; otherwise it rejects with
    a TypeError and stores nothing. The requests are issued in the order
    of the list. *)
Fixpoint fetch_all (urls : list string) : Js (list (string * Response)) :=
  match urls with
  | [] => ret []
  | u :: rest =>
      let* r := fetch (get_request (absolute u)) in
      if ok r then
        let* rs := fetch_all rest in
        ret ((absolute u, r) :: rs)
      else throw TypeError
  end.

Fixpoint put_all (name : string) (entries : list (string * Response)) : Js unit :=
  match entries with
  | [] => ret tt
  | (u, r) :: rest => run cache_put name u r in put_all name rest
  end.

Definition cache_addAll (name : string) (urls : list string) : Js unit :=
  let* entries := fetch_all urls in
  put_all name entries.

Definition skipWaiting : Js unit := modify (with_skipped_waiting true).

(** The install handler, for any manifest. *)
Definition install_with (manifest : list string)
  : World -> HandlerResult unit * World :=
  hand_over
    (run caches_open CACHE_NAME in
     run cache_addAll CACHE_NAME manifest in
     skipWaiting).

Definition on_install : World -> HandlerResult unit * World :=
  install_with urlsToCache.

(** *** activate *)

Definition caches_keys : Js (list string) :=
  gets (fun w => storage_keys (caches w)).

Definition caches_delete (name : string) : Js unit :=
  modify (fun w => with_caches (storage_delete name (caches w)) w).

(** [Promise.all(cacheNames.map(cacheName => ...))] *)
Fixpoint delete_others (cacheNames : list string) : Js unit :=
  match cacheNames with
  | [] => ret tt
  | cacheName :: rest =>
      run (if negb (String.eqb cacheName CACHE_NAME)
           then caches_delete cacheName
           else ret tt) in
      delete_others rest
  end.

Definition clients_claim : Js unit := modify (with_clients_claimed true).

Definition on_activate : World -> HandlerResult unit * World :=
  hand_over
    (let* cacheNames := caches_keys in
     run delete_others cacheNames in
     clients_claim).

(** *** sync *)

Record SyncEvent : Type := mkSyncEvent { tag : string }.

(** [openIDB()] resolves with [request.result] of [indexedDB.open] (line
    186): the platform's IDBDatabase object for 'LiteraVerseDB', with no
    wrapper around it. *)
Definition openIDB : Js unit := ret tt.

(** [db.getAll('pending_sync')] on that object. An IDBDatabase has the
    methods close, createObjectStore, deleteObjectStore and transaction; it
    has no [getAll] (that is a method of an object store, reached through a
    transaction), so the call is a TypeError. *)
Definition db_getAll : Js (list SyncItem) := throw TypeError.

(** [db.delete('pending_sync', key)]: an IDBDatabase has no [delete]
    either. *)
Definition db_delete (key : Z) : Js unit := throw TypeError.

Definition replay_request (item : SyncItem) : Request :=
  mkRequest "POST" (item_url item)
            [("content-type", "application/json")]
            (option_map JsonText (data item)).

(** The body of [for (const item of pendingSync)]. *)
Fixpoint replay (pendingSync : list SyncItem) : Js unit :=
  match pendingSync with
  | [] => ret tt
  | item :: rest =>
      run fetch (replay_request item) in
      run db_delete (id item) in
      replay rest
  end.

Definition console_error (e : JsError) : Js unit :=
  modify (fun w => with_console (console w ++ [e]) w).

Definition syncReadingProgress : Js unit :=
  catch
    (let* db := openIDB in
     let* pendingSync := db_getAll in
     replay pendingSync)
    (fun error => console_error error).

Definition on_sync (event : SyncEvent) : World -> HandlerResult unit * World :=
  fun w =>
    if String.eqb (tag event) "sync-reading-progress"
    then hand_over syncReadingProgress w
    else (Returned, w).

End Worker.

(** ** push *)

(** [event.data] of a push event: bytes that [json()] either parses or
    rejects with a SyntaxError. *)
Inductive PushMessageData : Type :=
  | ValidJson (j : Json)
  | InvalidJson (text : string).

Record PushEvent : Type := mkPushEvent { push_data : option PushMessageData }.

Definition json (d : PushMessageData) : outcome Json :=
  match d with
  | ValidJson j => Resolved j
  | InvalidJson _ => Rejected SyntaxError
  end.

Fixpoint field (name : string) (fields : list (string * Json)) : option Json :=
  match fields with
  | [] => None
  | (n, v) :: rest => if String.eqb n name then Some v else field name rest
  end.

(** [v.name], for the names the handler reads (body, id, actions, title):
    a TypeError on null, the field of an object, undefined on anything else. *)
Definition get_property (name : string) (v : Json) : outcome (option Json) :=
  match v with
  | JNull => Rejected TypeError
  | JObj fields => Resolved (field name fields)
  | _ => Resolved None
  end.

Definition truthy (v : Json) : bool :=
  match v with
  | JNull => false
  | JBool b => b
  | JNum n => negb (n =? 0)
  | JStr s => negb (String.eqb s EmptyString)
  | JArr _ | JObj _ => true
  end.

(** [x || []] *)
Definition or_empty_array (x : option Json) : Json :=
  match x with
  | Some v => if truthy v then v else JArr []
  | None => JArr []
  end.

Definition then_ {A B} (o : outcome A) (k : A -> outcome B) : outcome B :=
  match o with
  | Resolved a => k a
  | Rejected e => Rejected e
  end.

(** The synchronous part of the push handler after [event.data.json()]:
    the options object and the title, in the order the source reads them. *)
Definition build_notification (now : Z) (data : Json) : outcome DisplayRequest :=
  then_ (get_property "body" data) (fun body =>
  then_ (get_property "id" data) (fun key =>
  then_ (get_property "actions" data) (fun acts =>
  then_ (get_property "title" data) (fun t =>
  Resolved
    (mkDisplayRequest t
       (mkOptions body
                  "/assets/icons/icon-192x192.png"
                  "/assets/icons/badge-72x72.png"
                  [100; 50; 100]
                  (mkNotificationData now key)
                  (or_empty_array acts))))))).

Definition showNotification (dr : DisplayRequest) : Js unit :=
  modify (fun w => with_display_requests (display_requests w ++ [dr]) w).

Definition on_push (event : PushEvent) : World -> HandlerResult unit * World :=
  fun w =>
    match push_data event with
    | None => (Returned, w)
    | Some d =>
        match then_ (json d) (build_notification (clock w)) with
        | Rejected e => (Threw e, w)
        | Resolved dr => hand_over (showNotification dr) w
        end
    end.

(** ** The worker as a whole *)

(** The events the platform delivers to the worker. *)
Inductive Event : Type :=
  | Install
  | Activate
  | Fetch (event : FetchEvent)
  | Sync (event : SyncEvent)
  | Push (event : PushEvent).

(** The world after the handler of one event has run. *)
Definition handle (origin : string) (net : Network) (ev : Event) (w : World)
  : World :=
  match ev with
  | Install => snd (on_install origin net w)
  | Activate => snd (on_activate w)
  | Fetch event => snd (on_fetch origin net event w)
  | Sync event => snd (on_sync net event w)
  | Push event => snd (on_push event w)
  end.

(** The world after a sequence of events, oldest first. *)
Definition run_events (origin : string) (net : Network) (evs : list Event)
           (w : World) : World :=
  fold_left (fun w ev => handle origin net ev w) evs w.

(** ** Notions the properties are stated with *)

(** The entry stored for URL [u] in the cache called [name]. *)
Definition entry (name u : string) (st : CacheStorage) : option Response :=
  match storage_lookup name st with
  | Some c => c !! u
  | None => None
  end.

(** A run of fetch events, one after the other. *)
Fixpoint run_fetches (origin : string) (net : Network)
         (events : list FetchEvent) (w : World) : World :=
  match events with
  | [] => w
  | event :: rest => run_fetches origin net rest (snd (on_fetch origin net event w))
  end.

(** No cache holds a key of the scheme the fetch handler refuses to touch.
    Every handler keeps it so ([no_extension_keys_invariant]); the platform's
    caches accept http and https requests only. *)
Definition no_extension_keys (st : CacheStorage) : Prop :=
  Forall (fun nc : string * Cache =>
            forall u, is_Some (nc.2 !! u) ->
                      startsWith u "chrome-extension://" = false) st.

(** The deletions [delete_others] performs, on the store alone. *)
Definition purge_step (st : CacheStorage) (cacheName : string) : CacheStorage :=
  if negb (String.eqb cacheName CACHE_NAME)
  then storage_delete cacheName st
  else st.

Definition purge (cacheNames : list string) (st : CacheStorage) : CacheStorage :=
  fold_left purge_step cacheNames st.

(** A resource of the manifest could not be fetched: the call rejected, or
    the answer's status is not ok. *)
Definition fetch_failed (o : outcome Response) : bool :=
  match o with
  | Resolved r => negb (ok r)
  | Rejected _ => true
  end.

(** ** Sample worlds, networks and events *)

Definition empty_world : World := mkWorld [] [] [] [] [] 0 false false.

Definition always_offline : Network := fun _ _ => Rejected TypeError.

Definition page (b : string) : Response :=
  mkResponse 200 "OK" basic [("content-type", "text/html")] (Text b).

Definition always_online : Network := fun _ rq => Resolved (page (url rq)).

Definition site : string := "https://literaverse.example".

Definition get_page (path : string) : FetchEvent :=
  mkFetchEvent (mkRequest "GET" (site +:+ path) [("accept", "text/html")] None).

Definition get_styles : FetchEvent :=
  mkFetchEvent (mkRequest "GET" (site +:+ "/book.css") [("accept", "text/css")] None).

Definition post_progress : FetchEvent :=
  mkFetchEvent
    (mkRequest "POST" (site +:+ "/api/progress")
               [("content-type", "application/json")]
               (Some (JsonText (JObj [("page", JNum 12)])))).

Definition get_without_accept : FetchEvent :=
  mkFetchEvent (mkRequest "GET" (site +:+ "/api/books") [] None).

Definition cached_world : World :=
  with_caches [(CACHE_NAME, {[ site +:+ "/reader.html" := page "reader" ]})]
              empty_world.

Definition operation_1 : SyncItem :=
  mkSyncItem 1 (site +:+ "/api/progress") (Some (JObj [("page", JNum 3)])).

Definition operation_2 : SyncItem :=
  mkSyncItem 2 (site +:+ "/api/progress") (Some (JObj [("page", JNum 4)])).

Definition operation_3 : SyncItem :=
  mkSyncItem 3 (site +:+ "/api/notes") (Some (JStr "margin note")).

Definition queued_world : World :=
  with_pending_sync [operation_1; operation_2; operation_3] cached_world.

Definition sync_reading_progress : SyncEvent := mkSyncEvent "sync-reading-progress".

Definition installed_world : World := snd (on_install site always_online empty_world).

Definition saved : Response :=
  mkResponse 200 "OK" basic [("content-type", "application/json")] (Text "{}").

(** The second call does not reach the server. *)
Definition second_unreachable : Network :=
  fun t _ => if Nat.eqb t 1 then Rejected TypeError else Resolved saved.

(** The network of a day on which the stylesheet is missing. *)
Definition styles_missing : Network :=
  fun _ rq =>
    if String.eqb (url rq) (site +:+ "/styles.css")
    then Resolved (mkResponse 404 "Not Found" basic [] (Text "not found"))
    else Resolved (page (url rq)).

(** A world in which the offline page has been fetched once, while online. *)
Definition offline_ready_world : World :=
  snd (on_fetch site always_online (get_page "/offline.html") empty_world).

(** A world that still holds the cache of the previous generation, in which
    the reader page is stored in both. *)
Definition two_generations_world : World :=
  with_caches
    [("literaverse-v2", {[ site +:+ "/reader.html" := page "reader v2" ]});
     (CACHE_NAME, {[ site +:+ "/reader.html" := page "reader v3" ]})]
    empty_world.

(** ** notificationclick *)

(** A window client, as [clients.matchAll({ type: 'window' })] lists it. *)
Record Client : Type := mkClient {
  client_url : string;
  has_focus : bool        (* 'focus' in client *)
}.

(** The argument of a [clients.openWindow] call: a text, or a text followed
    by the string form of an interpolated value ([None] is undefined). *)
Inductive WindowUrl : Type :=
  | Plain (s : string)
  | Interpolated (text : string) (value : option Json).

(** What the click handler works on: the open windows, whether
    [clients.openWindow] exists, and the calls made so far. *)
Record Desktop : Type := mkDesktop {
  windows : list Client;
  can_open : bool;
  closed : nat;                   (* notification.close() calls *)
  focused : list Client;          (* client.focus() calls *)
  opened : list WindowUrl         (* clients.openWindow(...) calls *)
}.

Record NotificationClickEvent : Type := mkClick {
  action : string;                (* the empty string when the body was clicked *)
  notification_data : Json        (* event.notification.data; null when none *)
}.

Definition close_notification (d : Desktop) : Desktop :=
  mkDesktop (windows d) (can_open d) (S (closed d)) (focused d) (opened d).

Definition focus (c : Client) (d : Desktop) : Desktop :=
  mkDesktop (windows d) (can_open d) (closed d) (focused d ++ [c]) (opened d).

(** [clients.openWindow(u)]; calling it when it does not exist is a
    TypeError. *)
Definition openWindow (u : WindowUrl) (d : Desktop) : outcome unit * Desktop :=
  if can_open d
  then (Resolved tt,
        mkDesktop (windows d) (can_open d) (closed d) (focused d) (opened d ++ [u]))
  else (Rejected TypeError, d).

Definition handleNotificationAction (action : string) (data : Json) (d : Desktop)
  : outcome unit * Desktop :=
  if String.eqb action "open_book" then
    match get_property "bookId" data with
    | Rejected e => (Rejected e, d)
    | Resolved bookId => openWindow (Interpolated "/reader.html?book=" bookId) d
    end
  else if String.eqb action "view_notifications" then
    openWindow (Plain "/#notifications") d
  else (Resolved tt, d).

(** The loop over the client list: the first client whose url is '/' and
    that can be focused. *)
Fixpoint first_root_client (clientList : list Client) : option Client :=
  match clientList with
  | [] => None
  | client :: rest =>
      if String.eqb (client_url client) "/" && has_focus client
      then Some client
      else first_root_client rest
  end.

Definition on_notificationclick (event : NotificationClickEvent)
  : Desktop -> HandlerResult unit * Desktop :=
  fun d0 =>
    let d := close_notification d0 in
    if negb (String.eqb (action event) EmptyString) then
      match handleNotificationAction (action event) (notification_data event) d with
      | (Resolved _, d') => (Returned, d')
      | (Rejected e, d') => (Threw e, d')
      end
    else
      match first_root_client (windows d) with
      | Some client => (Settled (Resolved tt), focus client d)
      | None =>
          if can_open d
          then let '(o, d') := openWindow (Plain "/") d in (Settled o, d')
          else (Settled (Resolved tt), d)
      end.

(** [notification.data] of a notification the push handler displayed: the
    object it put under [data]. *)
Definition data_object (nd : NotificationData) : Json :=
  JObj (("dateOfArrival", JNum (dateOfArrival nd)) ::
        match primaryKey nd with
        | Some key => [("primaryKey", key)]
        | None => []
        end).

(** ** The upgrade of the database *)

(** An object store: its key path and its records. *)
Record ObjectStore : Type := mkObjectStore {
  keyPath : string;
  records : list Json
}.

Abbreviation Database := (gmap string ObjectStore).

(** [db.createObjectStore(name, { keyPath })], guarded as in the source by
    [!db.objectStoreNames.contains(name)]. *)
Definition create_if_missing (name key : string) (db : Database) : Database :=
  match db !! name with
  | Some _ => db
  | None => <[name := mkObjectStore key []]> db
  end.

(** The [onupgradeneeded] callback of [openIDB]. *)
Definition onupgradeneeded (db : Database) : Database :=
  create_if_missing "offline_books" "id"
    (create_if_missing "pending_sync" "id" db).

Definition empty_desktop : Desktop := mkDesktop [] true 0 [] [].

(** A desktop with two windows of the site open, under their absolute
    URLs, as the platform reports them. *)
Definition open_site_desktop : Desktop :=
  mkDesktop [mkClient (site +:+ "/reader.html") true; mkClient (site +:+ "/") true]
            true 0 [] [].

(** A push payload that names a book, and the display request the push
    handler makes of it at time 1000. *)
Definition chapter_payload : Json :=
  JObj [("title", JStr "New chapter"); ("body", JStr "Chapter 12 is out");
        ("id", JStr "42"); ("bookId", JStr "7");
        ("actions", JArr [JObj [("action", JStr "open_book")]])].

Definition pushed_chapter : DisplayRequest :=
  mkDisplayRequest
    (Some (JStr "New chapter"))
    (mkOptions (Some (JStr "Chapter 12 is out"))
               "/assets/icons/icon-192x192.png"
               "/assets/icons/badge-72x72.png"
               [100; 50; 100]
               (mkNotificationData 1000 (Some (JStr "42")))
               (JArr [JObj [("action", JStr "open_book")]])).

(** ** The page: what UserManager runs against *)

(** A text held by localStorage, looked at the way the code looks at it:
    either it parses, to the value [j], or JSON.parse rejects it. A text
    that parses is never empty. *)
Inductive Stored : Type :=
  | JsonOf (j : Json)
  | Unparsable (text : string).

(** [if (text)] on a stored text *)
Definition stored_truthy (s : Stored) : bool :=
  match s with
  | JsonOf _ => true
  | Unparsable text => negb (String.eqb text EmptyString)
  end.

Definition JSON_parse (s : Stored) : outcome Json :=
  match s with
  | JsonOf j => Resolved j
  | Unparsable _ => Rejected SyntaxError
  end.

(** One [fetch] of the page: the request and its credentials option. *)
Record PageCall : Type := mkPageCall {
  call_request : Request;
  credentials : string
}.

(** The page's state. The operations of localStorage are taken to
    succeed. *)
Record Page : Type := mkPage {
  localStorage : gmap string Stored;
  onLine : bool;                      (* navigator.onLine *)
  calls : list PageCall;              (* every fetch issued, oldest first *)
  page_console : list JsError         (* console.error calls *)
}.

Definition Script (A : Type) : Type := Page -> outcome A * Page.

Definition yield {A} (a : A) : Script A := fun pg => (Resolved a, pg).

Definition raise {A} (e : JsError) : Script A := fun pg => (Rejected e, pg).

Definition and_then {A B} (p : Script A) (k : A -> Script B) : Script B :=
  fun pg =>
    match p pg with
    | (Resolved a, pg') => k a pg'
    | (Rejected e, pg') => (Rejected e, pg')
    end.

(** [try { p } catch (error) { h error }] *)
Definition rescue {A} (p : Script A) (h : JsError -> Script A) : Script A :=
  fun pg =>
    match p pg with
    | (Resolved a, pg') => (Resolved a, pg')
    | (Rejected e, pg') => h e pg'
    end.

(** A synchronous step that may throw. *)
Definition lift {A} (o : outcome A) : Script A := fun pg => (o, pg).

Notation "'let+' x ':=' p 'in' k" := (and_then p (fun x => k))
  (at level 10, x name, p at level 100, k at level 200) : js_scope.
Notation "'run+' p 'in' k" := (and_then p (fun _ => k))
  (at level 10, p at level 100, k at level 200) : js_scope.

Definition getItem (key : string) : Script (option Stored) :=
  fun pg => (Resolved (localStorage pg !! key), pg).

(** [localStorage.setItem(key, JSON.stringify(value))] *)
Definition setItem_json (key : string) (value : Json) : Script unit :=
  fun pg =>
    (Resolved tt,
     mkPage (<[key := JsonOf value]> (localStorage pg)) (onLine pg) (calls pg)
            (page_console pg)).

Definition navigator_onLine : Script bool := fun pg => (Resolved (onLine pg), pg).

Definition page_console_error (e : JsError) : Script unit :=
  fun pg =>
    (Resolved tt,
     mkPage (localStorage pg) (onLine pg) (calls pg) (page_console pg ++ [e])).

(** *** Objects *)

(** [obj[k] = v] on the list of an object's fields: the value is replaced
    where the key is, a new key goes to the end. (The place JavaScript gives
    to integer-like keys is not modelled; the code never looks at the order
    of fields.) *)
Fixpoint set_field (k : string) (v : Json) (fs : list (string * Json))
  : list (string * Json) :=
  match fs with
  | [] => [(k, v)]
  | (k0, v0) :: rest =>
      if String.eqb k0 k then (k0, v) :: rest
      else (k0, v0) :: set_field k v rest
  end.

Definition assign (target source : list (string * Json)) : list (string * Json) :=
  fold_left (fun t kv => set_field (fst kv) (snd kv) t) source target.

Fixpoint indexed (i : nat) (items : list Json) : list (string * Json) :=
  match items with
  | [] => []
  | v :: rest => (pretty i, v) :: indexed (S i) rest
  end.

Fixpoint characters (s : string) : list Json :=
  match s with
  | EmptyString => []
  | String c rest => JStr (String c EmptyString) :: characters rest
  end.

(** The own enumerable properties a spread copies: the fields of an
    object, the indexed elements of an array or of a string, nothing of
    null, a number or a boolean. *)
Definition own_properties (v : Json) : list (string * Json) :=
  match v with
  | JObj fields => fields
  | JArr items => indexed 0 items
  | JStr s => indexed 0 (characters s)
  | JNull | JBool _ | JNum _ => []
  end.

(** [{ ...a, ...b }] *)
Definition spread (a b : Json) : Json :=
  JObj (assign (own_properties a) (own_properties b)).

(** [v?.name]: undefined on null, else as [v.name]. *)
Definition optional_get (name : string) (v : Json) : option Json :=
  match v with
  | JObj fields => field name fields
  | _ => None
  end.

(** [x !== s] for a string [s] *)
Definition is_not_string (s : string) (x : option Json) : bool :=
  match x with
  | Some (JStr t) => negb (String.eqb t s)
  | _ => true
  end.

(** [x === s] for a string [s] *)
Definition is_book (s : string) (x : Json) : bool :=
  negb (is_not_string s (Some x)).

(** [favorites.includes(bookId)] for a string [bookId]: membership in an
    array, containment in a string; a number, a boolean or an object has no
    such method. *)
Definition js_includes (favorites : Json) (bookId : string) : outcome bool :=
  match favorites with
  | JArr items => Resolved (existsb (is_book bookId) items)
  | JStr s => Resolved (includes s bookId)
  | _ => Rejected TypeError
  end.

(** [[...favorites, bookId]] *)
Definition js_append (favorites : Json) (bookId : string) : outcome Json :=
  match favorites with
  | JArr items => Resolved (JArr (items ++ [JStr bookId]))
  | JStr s => Resolved (JArr (characters s ++ [JStr bookId]))
  | _ => Rejected TypeError
  end.

(** [favorites.filter(id => id !== bookId)]: arrays only have [filter]. *)
Definition js_without (favorites : Json) (bookId : string) : outcome Json :=
  match favorites with
  | JArr items =>
      Resolved (JArr (List.filter (fun x => is_not_string bookId (Some x)) items))
  | _ => Rejected TypeError
  end.

(** *** UserManager *)

Section UserManager.

(** [this.config.apiUrl], the network as the page sees it, and JSON.parse
    on the characters of a response body. *)
Variable apiUrl : string.
Variable net : Network.
Variable parse : string -> outcome Json.

Definition storageKey : string := "literaverse_user_data".

Definition page_fetch (rq : Request) (cred : string) : Script Response :=
  fun pg =>
    (net (length (calls pg)) rq,
     mkPage (localStorage pg) (onLine pg) (calls pg ++ [mkPageCall rq cred])
            (page_console pg)).

(** [response.json()] *)
Definition response_json (r : Response) : outcome Json :=
  match resp_body r with
  | JsonText j => Resolved j
  | Text s => parse s
  end.

Definition saveUser (user : Json) : Script unit := setItem_json storageKey user.

Definition getCurrentUser : Script Json :=
  rescue
    (let+ data := getItem storageKey in
     let from_api : Script Json :=
       let+ online := navigator_onLine in
       if online then
         let+ response :=
           page_fetch (mkRequest "GET" (apiUrl +:+ "/user") [] None) "include" in
         if ok response then
           let+ user := lift (response_json response) in
           run+ saveUser user in
           yield user
         else yield JNull
       else yield JNull in
     match data with
     | Some text =>
         if stored_truthy text then lift (JSON_parse text) else from_api
     | None => from_api
     end)
    (fun error => run+ page_console_error error in yield JNull).

Definition json_request (m u : string) (body : Json) : Request :=
  mkRequest m u [("content-type", "application/json")] (Some (JsonText body)).

Definition updateUser (updates : Json) : Script Json :=
  rescue
    (let+ currentUser := getCurrentUser in
     let updatedUser := spread currentUser updates in
     run+ saveUser updatedUser in
     let+ online := navigator_onLine in
     run+ (if online then
             let+ role := lift (get_property "role" currentUser) in
             if is_not_string "guest" role then
               run+ page_fetch (json_request "PUT" (apiUrl +:+ "/user") updates)
                               "include" in
               yield tt
             else yield tt
           else yield tt) in
     yield updatedUser)
    (fun error => run+ page_console_error error in raise error).

Definition isBookFavorite (bookId : string) : Script bool :=
  rescue
    (let+ user := getCurrentUser in
     let favorites := or_empty_array (optional_get "favorites" user) in
     lift (js_includes favorites bookId))
    (fun error => run+ page_console_error error in yield false).

Definition addToFavorites (bookId : string) : Script unit :=
  rescue
    (let+ user := getCurrentUser in
     let favorites := or_empty_array (optional_get "favorites" user) in
     let+ present := lift (js_includes favorites bookId) in
     if negb present then
       let+ updated := lift (js_append favorites bookId) in
       run+ updateUser (JObj [("favorites", updated)]) in
       yield tt
     else yield tt)
    (fun error => run+ page_console_error error in raise error).

Definition removeFromFavorites (bookId : string) : Script unit :=
  rescue
    (let+ user := getCurrentUser in
     let favorites := or_empty_array (optional_get "favorites" user) in
     let+ updated := lift (js_without favorites bookId) in
     run+ updateUser (JObj [("favorites", updated)]) in
     yield tt)
    (fun error => run+ page_console_error error in raise error).

(** [syncReadingProgress(progress)] of UserManager; [None] is undefined. *)
Definition user_syncReadingProgress (progress : option Json) : Script unit :=
  rescue
    (let+ online := navigator_onLine in
     if online then
       run+ page_fetch
              (mkRequest "POST" (apiUrl +:+ "/progress/sync")
                         [("content-type", "application/json")]
                         (option_map JsonText progress))
              "include" in
       yield tt
     else yield tt)
    (fun error => page_console_error error).

Definition syncUserData (user : Json) : Script unit :=
  rescue
    (let+ online := navigator_onLine in
     if online then
       let+ role := lift (get_property "role" user) in
       if is_not_string "guest" role then
         run+ page_fetch (json_request "POST" (apiUrl +:+ "/user/sync") user)
                         "include" in
         yield tt
       else yield tt
     else yield tt)
    (fun error => page_console_error error).

End UserManager.

(** A page of a guest reader with two favorites, offline. *)
Definition guest_fields : list (string * Json) :=
  [("id", JStr "guest_1"); ("role", JStr "guest");
   ("favorites", JArr [JStr "1"; JStr "3"])].

Definition guest_page : Page :=
  mkPage {[ storageKey := JsonOf (JObj guest_fields) ]} false [] [].

(** A page of a registered reader, online. *)
Definition member_page : Page :=
  mkPage {[ storageKey := JsonOf (JObj [("id", JStr "u7"); ("role", JStr "member")]) ]}
         true [] [].

(** A fresh page: nothing stored, online. *)
Definition fresh_page : Page := mkPage ∅ true [] [].

Definition no_parse : string -> outcome Json := fun _ => Rejected SyntaxError.

Definition api : string := "https://api.literaverse.com".

(** ** The page's cache cleanup (script.js) *)

(** The label [cleanupCache] compares with, a literal of its own. *)
Definition currentCache : string := "literaverse-v3".

(** [for (const cacheName of cacheNames) ...] *)
Fixpoint cleanup_loop (cacheNames : list string) : Js unit :=
  match cacheNames with
  | [] => ret tt
  | cacheName :: rest =>
      run (if negb (String.eqb cacheName currentCache)
           then caches_delete cacheName
           else ret tt) in
      cleanup_loop rest
  end.

(** [cleanupCache()]; the argument tells whether ['caches' in window]. The
    cache store is the one the worker of the same origin uses. *)
Definition cleanupCache (caches_in_window : bool) : Js unit :=
  catch
    (if caches_in_window then
       let* cacheNames := caches_keys in
       cleanup_loop cacheNames
     else ret tt)
    (fun error => console_error error).

(** ** BookManager: cachedFetch *)

Section BookCache.

(** What a fetch function resolves with. *)
Variable Data : Type.

Record CacheRecord : Type := mkCacheRecord {
  cached_data : Data;
  timestamp : Z
}.

(** [this.cacheDuration], five minutes in milliseconds. *)
Definition cacheDuration : Z := 5 * 60 * 1000.

(** [cachedFetch(key, fetchFunction)] on the map [this.cache], at time
    [now] (Date.now() on entry); [fetchFunction] is given by how its promise
    settles when it is called. *)
Definition cachedFetch (key : string) (fetchFunction : outcome Data) (now : Z)
           (cache : gmap string CacheRecord)
  : outcome Data * gmap string CacheRecord :=
  let cached := cache !! key in
  let refetch :=
    match fetchFunction with
    | Resolved data => (Resolved data, <[key := mkCacheRecord data now]> cache)
    | Rejected err =>
        match cached with
        | Some c => (Resolved (cached_data c), cache)
        | None => (Rejected err, cache)
        end
    end in
  match cached with
  | Some c =>
      if now - timestamp c <? cacheDuration
      then (Resolved (cached_data c), cache)
      else refetch
  | None => refetch
  end.

End BookCache.

Arguments mkCacheRecord {Data} _ _.
Arguments cached_data {Data} _.
Arguments timestamp {Data} _.
Arguments cachedFetch {Data} _ _ _ _.

(** * Properties *)

(** ** Reading the monad *)

Lemma bind_resolved {A B} (p : Js A) (k : A -> Js B) w a w' :
  p w = (Resolved a, w') -> bind p k w = k a w'.
Proof. intros H. unfold bind. now rewrite H. Qed.

Lemma bind_rejected {A B} (p : Js A) (k : A -> Js B) w e w' :
  p w = (Rejected e, w') -> bind p k w = (Rejected e, w').
Proof. intros H. unfold bind. now rewrite H. Qed.

Lemma world_eta w :
  mkWorld (caches w) (pending_sync w) (net_log w) (display_requests w)
          (console w) (clock w) (skipped_waiting w) (clients_claimed w) = w.
Proof. now destruct w. Qed.

(** ** Strings *)

Lemma eqb_false_neq (a b : string) : String.eqb a b = false <-> a <> b.
Proof. apply String.eqb_neq. Qed.

(** A URL that starts with [http] does not start with [chrome-extension://]. *)
Lemma prefix_http_not_extension u :
  String.prefix "http" u = true -> startsWith u "chrome-extension://" = false.
Proof.
  unfold startsWith. destruct u as [|a u]; [discriminate|].
  cbn [String.prefix]. destruct (Ascii.ascii_dec "h"%char a) as [<-|]; [|discriminate].
  intros _. reflexivity.
Qed.

(** ** The fetch handler, case by case *)

Section FetchCases.

Variable origin : string.
Variable net : Network.
Variable event : FetchEvent.
Variable w : World.

Let rq := request event.

Lemma on_fetch_not_get :
  method rq <> "GET" -> on_fetch origin net event w = (Returned, w).
Proof.
  intros H. unfold on_fetch. fold rq.
  apply eqb_false_neq in H. now rewrite H.
Qed.

Lemma on_fetch_extension :
  startsWith (url rq) "chrome-extension://" = true ->
  on_fetch origin net event w = (Returned, w).
Proof.
  intros H. unfold on_fetch. fold rq. rewrite H.
  now destruct (negb _).
Qed.

Lemma on_fetch_handled :
  method rq = "GET" ->
  startsWith (url rq) "chrome-extension://" = false ->
  on_fetch origin net event w =
  hand_over
    (let* response := caches_match (url rq) in
     match response with
     | Some r => ret (Some r)
     | None => network_branch origin net event
     end) w.
Proof.
  intros Hm Hx. unfold on_fetch. fold rq. rewrite Hm, Hx. reflexivity.
Qed.

Lemma on_fetch_hit r :
  method rq = "GET" ->
  startsWith (url rq) "chrome-extension://" = false ->
  storage_match (url rq) (caches w) = Some r ->
  on_fetch origin net event w = (Settled (Resolved (Some r)), w).
Proof.
  intros Hm Hx Hhit. rewrite on_fetch_handled by assumption.
  unfold hand_over, bind, caches_match, gets, ret. now rewrite Hhit.
Qed.

Lemma on_fetch_miss :
  method rq = "GET" ->
  startsWith (url rq) "chrome-extension://" = false ->
  storage_match (url rq) (caches w) = None ->
  on_fetch origin net event w = hand_over (network_branch origin net event) w.
Proof.
  intros Hm Hx Hmiss. rewrite on_fetch_handled by assumption.
  unfold hand_over, bind, caches_match, gets. now rewrite Hmiss.
Qed.

End FetchCases.

(** ** The network branch *)

Section NetworkBranch.

Variable origin : string.
Variable net : Network.
Variable event : FetchEvent.
Variable w : World.

Let rq := request event.
Let asked := with_net_log (net_log w ++ [rq]) w.

Lemma network_branch_invalid r :
  net (length (net_log w)) rq = Resolved r ->
  is_valid_response r = false ->
  network_branch origin net event w = (Resolved (Some r), asked).
Proof.
  intros Hnet Hv. unfold network_branch, catch, bind, fetch. fold rq.
  rewrite Hnet, Hv. reflexivity.
Qed.

Lemma network_branch_valid r :
  net (length (net_log w)) rq = Resolved r ->
  is_valid_response r = true ->
  network_branch origin net event w =
  (Resolved (Some r),
   with_caches
     (storage_put CACHE_NAME (url rq) r (storage_open CACHE_NAME (caches w)))
     asked).
Proof.
  intros Hnet Hv. unfold network_branch, catch, bind, fetch. fold rq.
  rewrite Hnet, Hv. reflexivity.
Qed.

Lemma network_branch_rejected e :
  net (length (net_log w)) rq = Rejected e ->
  network_branch origin net event w =
  match headers_get "accept" (req_headers rq) with
  | None => (Rejected TypeError, asked)
  | Some accept =>
      if includes accept "text/html"
      then (Resolved (storage_match (absolute origin "/offline.html") (caches w)),
            asked)
      else (Resolved (Some offline_response), asked)
  end.
Proof.
  intros Hnet. unfold network_branch, catch, bind, fetch. fold rq.
  rewrite Hnet. destruct (headers_get _ _) as [accept|]; [|reflexivity].
  destruct (includes _ _); reflexivity.
Qed.

(** The branch touches nothing but the log of network calls and,
    for a valid response, the cache store. *)
Lemma network_branch_caches :
  caches (snd (network_branch origin net event w)) = caches w \/
  exists r,
    net (length (net_log w)) rq = Resolved r /\
    status r = 200 /\ rtype r = basic /\
    caches (snd (network_branch origin net event w)) =
    storage_put CACHE_NAME (url rq) r (storage_open CACHE_NAME (caches w)).
Proof.
  destruct (net (length (net_log w)) rq) as [r|e] eqn:Hnet.
  - destruct (is_valid_response r) eqn:Hv.
    + right. exists r. rewrite (network_branch_valid r Hnet Hv).
      unfold is_valid_response in Hv.
      apply andb_prop in Hv as [Hs Ht].
      apply Z.eqb_eq in Hs. apply bool_decide_eq_true in Ht.
      repeat split; assumption.
    + left. now rewrite (network_branch_invalid r Hnet Hv).
  - left. rewrite (network_branch_rejected e Hnet).
    destruct (headers_get _ _); [destruct (includes _ _)|]; reflexivity.
Qed.

Lemma network_branch_pending_sync :
  pending_sync (snd (network_branch origin net event w)) = pending_sync w.
Proof.
  destruct (net (length (net_log w)) rq) as [r|e] eqn:Hnet.
  - destruct (is_valid_response r) eqn:Hv.
    + now rewrite (network_branch_valid r Hnet Hv).
    + now rewrite (network_branch_invalid r Hnet Hv).
  - rewrite (network_branch_rejected e Hnet).
    destruct (headers_get _ _); [destruct (includes _ _)|]; reflexivity.
Qed.

End NetworkBranch.

(** Case analysis along the guards of the fetch handler: not a GET, a
    chrome-extension URL, a cache hit, a cache miss. Each case rewrites the
    handler to what it does there. *)
Ltac fetch_guards origin net event w :=
  let Hm := fresh "Hm" in
  let Hx := fresh "Hx" in
  let Hc := fresh "Hc" in
  let r := fresh "r" in
  destruct (String.eqb_spec (method (request event)) "GET") as [Hm|Hm];
  [ destruct (startsWith (url (request event)) "chrome-extension://") eqn:Hx;
    [ rewrite (on_fetch_extension origin net event w Hx)
    | destruct (storage_match (url (request event)) (caches w)) as [r|] eqn:Hc;
      [ rewrite (on_fetch_hit origin net event w r Hm Hx Hc)
      | rewrite (on_fetch_miss origin net event w Hm Hx Hc) ] ]
  | rewrite (on_fetch_not_get origin net event w Hm) ].

(** What the fetch handler does to the cache store, for every event. *)
Lemma on_fetch_caches origin net event w :
  caches (snd (on_fetch origin net event w)) = caches w \/
  (method (request event) = "GET" /\
   exists r,
     net (length (net_log w)) (request event) = Resolved r /\
     status r = 200 /\ rtype r = basic /\
     caches (snd (on_fetch origin net event w)) =
     storage_put CACHE_NAME (url (request event)) r
                 (storage_open CACHE_NAME (caches w))).
Proof.
  fetch_guards origin net event w; try (left; reflexivity).
  unfold hand_over.
  destruct (network_branch_caches origin net event w) as [H|(r & H)].
  - left. destruct (network_branch _ _ _ _). exact H.
  - right. split; [assumption|]. exists r.
    destruct (network_branch _ _ _ _). exact H.
Qed.

Lemma on_fetch_pending_sync origin net event w :
  pending_sync (snd (on_fetch origin net event w)) = pending_sync w.
Proof.
  fetch_guards origin net event w; try reflexivity.
  unfold hand_over.
  pose proof (network_branch_pending_sync origin net event w) as H.
  destruct (network_branch _ _ _ _). exact H.
Qed.

(** ** The cache store as a table of entries *)

Lemma storage_lookup_app n (st st' : CacheStorage) :
  storage_lookup n (st ++ st') =
  match storage_lookup n st with
  | Some c => Some c
  | None => storage_lookup n st'
  end.
Proof.
  induction st as [|[n0 c] st IH]; cbn; [reflexivity|].
  now destruct (String.eqb n0 n).
Qed.

Lemma storage_lookup_open n name (st : CacheStorage) :
  storage_lookup n (storage_open name st) =
  match storage_lookup n st with
  | Some c => Some c
  | None => if String.eqb name n then Some ∅ else None
  end.
Proof.
  unfold storage_open. destruct (storage_lookup name st) as [c|] eqn:Hl.
  - destruct (storage_lookup n st) eqn:Hn; [reflexivity|].
    destruct (String.eqb_spec name n) as [->|]; congruence.
  - rewrite storage_lookup_app. cbn. reflexivity.
Qed.

Lemma storage_lookup_put n name u r (st : CacheStorage) :
  storage_lookup n (storage_put name u r st) =
  if String.eqb name n
  then match storage_lookup n st with
       | Some c => Some (<[u := r]> c)
       | None => None
       end
  else storage_lookup n st.
Proof.
  induction st as [|[n0 c] st IH]; cbn.
  - now destruct (String.eqb name n).
  - destruct (String.eqb_spec n0 name) as [->|Hne]; cbn.
    + destruct (String.eqb name n); reflexivity.
    + rewrite IH. destruct (String.eqb_spec n0 n) as [->|]; [|reflexivity].
      apply eqb_false_neq in Hne. rewrite String.eqb_sym in Hne.
      now rewrite Hne.
Qed.

(** Opening the current cache and putting [r] under [k] sets that one
    entry and no other. *)
Lemma entry_put_open name u k r (st : CacheStorage) :
  entry name u (storage_put CACHE_NAME k r (storage_open CACHE_NAME st)) =
  if String.eqb CACHE_NAME name && String.eqb k u then Some r
  else entry name u st.
Proof.
  unfold entry. rewrite storage_lookup_put, storage_lookup_open.
  destruct (String.eqb_spec CACHE_NAME name) as [<-|Hn]; cbn [andb].
  - destruct (String.eqb_spec k u) as [<-|Hk].
    + destruct (storage_lookup CACHE_NAME st); apply lookup_insert_eq.
    + destruct (storage_lookup CACHE_NAME st);
        rewrite lookup_insert_ne by assumption; [reflexivity|].
      apply lookup_empty.
  - destruct (storage_lookup name st); reflexivity.
Qed.

(** One fetch event changes an entry only to store a valid response to
    this very GET request in the current cache. *)
Lemma on_fetch_entry origin net event w name u r :
  entry name u (caches (snd (on_fetch origin net event w))) = Some r ->
  entry name u (caches w) <> Some r ->
  name = CACHE_NAME /\ u = url (request event) /\
  method (request event) = "GET" /\
  net (length (net_log w)) (request event) = Resolved r /\
  status r = 200 /\ rtype r = basic.
Proof.
  intros Hnew Hold.
  destruct (on_fetch_caches origin net event w)
    as [Heq|(Hm & r0 & Hnet & Hs & Ht & Heq)]; rewrite Heq in Hnew.
  - contradiction.
  - rewrite entry_put_open in Hnew.
    destruct (String.eqb_spec CACHE_NAME name) as [<-|]; cbn [andb] in Hnew;
      [|contradiction].
    destruct (String.eqb_spec (url (request event)) u) as [<-|];
      [|contradiction].
    injection Hnew as <-. repeat split; assumption.
Qed.

(** ** Mutating requests *)

(** C1, counterexample: a POST whose network call would fail is not queued;
    the store 'pending_sync' holds no new operation afterwards. *)
Lemma failed_post_is_not_queued :
  ~ exists op,
      pending_sync (snd (on_fetch site always_offline post_progress empty_world))
      = pending_sync empty_world ++ [op].
Proof.
  intros [op H]. cbn in H. discriminate H.
Qed.

(** C1, as the code has it: the fetch handler skips every request that
    is not a GET. It returns without responding, issues no network call of
    its own and leaves the world, the store 'pending_sync' included, as it
    was: no operation is appended. *)
Theorem mutating_request_is_skipped origin net event w :
  method (request event) <> "GET" ->
  on_fetch origin net event w = (Returned, w) /\
  pending_sync (snd (on_fetch origin net event w)) = pending_sync w.
Proof.
  intros H. rewrite on_fetch_not_get by assumption. split; reflexivity.
Qed.

Lemma mutating_request_is_skipped_witness :
  on_fetch site always_offline post_progress empty_world = (Returned, empty_world) /\
  pending_sync (snd (on_fetch site always_offline post_progress empty_world))
  = pending_sync empty_world.
Proof.
  apply (mutating_request_is_skipped site always_offline post_progress empty_world).
  cbn. discriminate.
Defined.

(** ** Cache first *)

Lemma storage_match_Some u r (st : CacheStorage) :
  storage_match u st = Some r ->
  exists nc, nc ∈ st /\ nc.2 !! u = Some r.
Proof.
  induction st as [|[n c] st IH]; cbn; [discriminate|].
  destruct (c !! u) as [r'|] eqn:Hc.
  - intros [= <-]. exists (n, c). split; [left|exact Hc].
  - intros H. destruct (IH H) as (nc & Hin & Hnc).
    exists nc. split; [now right|exact Hnc].
Qed.

Lemma cached_key_not_extension u r (st : CacheStorage) :
  no_extension_keys st ->
  storage_match u st = Some r ->
  startsWith u "chrome-extension://" = false.
Proof.
  intros Hst Hm. apply storage_match_Some in Hm as (nc & Hin & Hnc).
  unfold no_extension_keys in Hst. rewrite Forall_forall in Hst.
  apply (Hst nc Hin u). now exists r.
Qed.

Lemma no_extension_keys_open name (st : CacheStorage) :
  no_extension_keys st -> no_extension_keys (storage_open name st).
Proof.
  intros H. unfold storage_open. destruct (storage_lookup name st); [exact H|].
  apply Forall_app. split; [exact H|].
  constructor; [|constructor]. cbn. intros u [r Hr].
  rewrite lookup_empty in Hr. discriminate.
Qed.

Lemma no_extension_keys_put name k r (st : CacheStorage) :
  startsWith k "chrome-extension://" = false ->
  no_extension_keys st -> no_extension_keys (storage_put name k r st).
Proof.
  intros Hk. induction 1 as [|[n c] st Hc Hst IH]; cbn; [constructor|].
  destruct (String.eqb n name).
  - constructor; [|exact Hst]. cbn in *. intros u Hu.
    destruct (decide (k = u)) as [<-|Hne]; [exact Hk|].
    rewrite lookup_insert_ne in Hu by assumption. now apply Hc.
  - constructor; assumption.
Qed.

Lemma on_fetch_keeps_keys origin net event w :
  no_extension_keys (caches w) ->
  no_extension_keys (caches (snd (on_fetch origin net event w))).
Proof.
  intros Hw.
  destruct (startsWith (url (request event)) "chrome-extension://") eqn:Hx.
  { now rewrite on_fetch_extension. }
  destruct (on_fetch_caches origin net event w) as [->|(_ & r & _ & _ & _ & ->)];
    [exact Hw|].
  apply no_extension_keys_put; [exact Hx|].
  now apply no_extension_keys_open.
Qed.

(** C6: a GET request whose URL has an entry in the cache store is answered
    with that entry, and the world is left as it was; in particular the log
    of network calls has not grown, so no network call was made. *)
Theorem cached_get_is_served_from_cache origin net event w r :
  method (request event) = "GET" ->
  no_extension_keys (caches w) ->
  storage_match (url (request event)) (caches w) = Some r ->
  on_fetch origin net event w = (Settled (Resolved (Some r)), w) /\
  net_log (snd (on_fetch origin net event w)) = net_log w.
Proof.
  intros Hm Hst Hhit.
  assert (on_fetch origin net event w = (Settled (Resolved (Some r)), w)) as ->.
  { apply on_fetch_hit; [exact Hm| |exact Hhit].
    exact (cached_key_not_extension _ _ _ Hst Hhit). }
  split; reflexivity.
Qed.

Lemma cached_get_is_served_from_cache_witness :
  on_fetch site always_online (get_page "/reader.html") cached_world
  = (Settled (Resolved (Some (page "reader"))), cached_world) /\
  net_log (snd (on_fetch site always_online (get_page "/reader.html") cached_world))
  = net_log cached_world.
Proof.
  apply (cached_get_is_served_from_cache
           site always_online (get_page "/reader.html") cached_world
           (page "reader")).
  - reflexivity.
  - constructor; [|constructor]. intros u [x Hx]. cbn [snd] in Hx.
    apply lookup_singleton_Some in Hx as [<- _]. reflexivity.
  - vm_compute. reflexivity.
Defined.

(** ** What the fetch path writes into the cache store *)

Lemma run_fetches_app origin net (events events' : list FetchEvent) w :
  run_fetches origin net (events ++ events') w =
  run_fetches origin net events' (run_fetches origin net events w).
Proof.
  revert w. induction events as [|event events IH]; intros w; cbn.
  - reflexivity.
  - apply IH.
Qed.

(** A request that is not a GET leaves the cache store alone. *)
Lemma non_get_is_never_cached origin net event w :
  method (request event) <> "GET" ->
  caches (snd (on_fetch origin net event w)) = caches w.
Proof. intros H. now rewrite on_fetch_not_get. Qed.

(** So does a response that is not of type basic (cors, opaque, ...) or
    whose status is not 200. *)
Lemma invalid_response_is_never_cached origin net event w r :
  net (length (net_log w)) (request event) = Resolved r ->
  rtype r <> basic \/ status r <> 200 ->
  caches (snd (on_fetch origin net event w)) = caches w.
Proof.
  intros Hnet Hbad.
  destruct (on_fetch_caches origin net event w)
    as [H|(_ & r0 & Hnet0 & Hs & Ht & _)]; [exact H|].
  rewrite Hnet in Hnet0. injection Hnet0 as <-.
  destruct Hbad; contradiction.
Qed.

(** C9: whatever fetch events the worker handles, every entry found in the
    cache store afterwards that was not there before sits in the current
    cache, under the URL of a GET request of the run, and is a response the
    network gave to that request with status 200 and type basic. Responses of
    another type (cors, opaque) and responses to other methods are therefore
    never stored. *)
Theorem fetch_path_stores_only_valid_get_responses
        origin net events w name u r :
  entry name u (caches (run_fetches origin net events w)) = Some r ->
  entry name u (caches w) <> Some r ->
  name = CACHE_NAME /\ status r = 200 /\ rtype r = basic /\
  exists event t,
    event ∈ events /\
    method (request event) = "GET" /\
    url (request event) = u /\
    net t (request event) = Resolved r.
Proof.
  intros Hnew Hold. revert Hnew.
  induction events as [|event events IH] using rev_ind; cbn.
  - intros H. contradiction.
  - rewrite run_fetches_app. cbn.
    set (w1 := run_fetches origin net events w) in *.
    intros Hnew.
    assert (entry name u (caches w1) = Some r ->
            name = CACHE_NAME /\ status r = 200 /\ rtype r = basic /\
            exists event0 t,
              event0 ∈ events ++ [event] /\
              method (request event0) = "GET" /\
              url (request event0) = u /\
              net t (request event0) = Resolved r) as Hearlier.
    { intros H. destruct (IH H) as (Hn & Hs & Ht & ev & t & Hin & Hrest).
      repeat split; try assumption. exists ev, t. split; [|exact Hrest].
      apply elem_of_app. now left. }
    destruct (on_fetch_caches origin net event w1)
      as [Heq|(Hm & r0 & Hnet & Hs & Ht & Heq)]; rewrite Heq in Hnew.
    + now apply Hearlier.
    + rewrite entry_put_open in Hnew.
      destruct (String.eqb_spec CACHE_NAME name) as [<-|]; cbn [andb] in Hnew;
        [|now apply Hearlier].
      destruct (String.eqb_spec (url (request event)) u) as [<-|];
        [|now apply Hearlier].
      injection Hnew as <-. repeat split; try assumption.
      exists event, (length (net_log w1)). split.
      * apply elem_of_app. right. now left.
      * repeat split; assumption.
Qed.

Lemma fetch_path_stores_only_valid_get_responses_witness :
  CACHE_NAME = CACHE_NAME /\
  status (page (site +:+ "/book.css")) = 200 /\
  rtype (page (site +:+ "/book.css")) = basic /\
  exists event t,
    event ∈ [post_progress; get_styles] /\
    method (request event) = "GET" /\
    url (request event) = site +:+ "/book.css" /\
    always_online t (request event) = Resolved (page (site +:+ "/book.css")).
Proof.
  apply (fetch_path_stores_only_valid_get_responses
           site always_online [post_progress; get_styles] empty_world).
  - vm_compute. reflexivity.
  - cbn. discriminate.
Defined.

(** ** Background sync: the tag *)

Lemma on_sync_exact_tag net event w :
  tag event = "sync-reading-progress" ->
  on_sync net event w = hand_over (syncReadingProgress net) w.
Proof. intros H. unfold on_sync. now rewrite H. Qed.

Lemma on_sync_other_tag net event w :
  tag event <> "sync-reading-progress" ->
  on_sync net event w = (Returned, w).
Proof.
  intros H. unfold on_sync. apply eqb_false_neq in H. now rewrite H.
Qed.

(** C10: for a sync event whose tag is not exactly 'sync-reading-progress'
    the handler returns at once: nothing is handed to waitUntil, so no drain
    runs, and the world is unchanged, the queue, the cache store and the log
    of network calls included. A drain is started only when the handler
    hands a promise to the event, which it does for that tag alone. *)
Theorem sync_with_other_tag_is_noop net event w :
  tag event <> "sync-reading-progress" ->
  on_sync net event w = (Returned, w) /\
  pending_sync (snd (on_sync net event w)) = pending_sync w /\
  caches (snd (on_sync net event w)) = caches w /\
  net_log (snd (on_sync net event w)) = net_log w /\
  (forall o w', on_sync net event w <> (Settled o, w')).
Proof.
  intros H. rewrite on_sync_other_tag by assumption.
  repeat split; try reflexivity. intros o w'. discriminate.
Qed.

Lemma sync_with_other_tag_is_noop_witness :
  on_sync always_online (mkSyncEvent "sync-reading-progress ") queued_world
  = (Returned, queued_world) /\
  pending_sync (snd (on_sync always_online (mkSyncEvent "sync-reading-progress ")
                             queued_world))
  = pending_sync queued_world /\
  caches (snd (on_sync always_online (mkSyncEvent "sync-reading-progress ")
                       queued_world))
  = caches queued_world /\
  net_log (snd (on_sync always_online (mkSyncEvent "sync-reading-progress ")
                        queued_world))
  = net_log queued_world /\
  (forall o w', on_sync always_online (mkSyncEvent "sync-reading-progress ")
                        queued_world <> (Settled o, w')).
Proof.
  apply (sync_with_other_tag_is_noop
           always_online (mkSyncEvent "sync-reading-progress ") queued_world).
  cbn. discriminate.
Defined.

(** ** Activation: purging the other generations *)

Lemma with_caches_twice st st' w :
  with_caches st (with_caches st' w) = with_caches st w.
Proof. reflexivity. Qed.

Lemma delete_others_purges cacheNames w :
  delete_others cacheNames w =
  (Resolved tt, with_caches (purge cacheNames (caches w)) w).
Proof.
  revert w. induction cacheNames as [|n names IH]; intros w; cbn.
  - unfold ret. now destruct w.
  - unfold bind, purge_step.
    destruct (negb (String.eqb n CACHE_NAME)); cbn.
    + rewrite IH. reflexivity.
    + unfold ret. rewrite IH. reflexivity.
Qed.

Lemma on_activate_purges w :
  on_activate w =
  (Settled (Resolved tt),
   with_clients_claimed true
     (with_caches (purge (storage_keys (caches w)) (caches w)) w)).
Proof.
  unfold on_activate, hand_over, bind, caches_keys, gets, clients_claim, modify.
  rewrite delete_others_purges. reflexivity.
Qed.

Lemma storage_lookup_delete m n (st : CacheStorage) :
  storage_lookup m (storage_delete n st) =
  if String.eqb n m then None else storage_lookup m st.
Proof.
  induction st as [|[n0 c] st IH]; cbn.
  - now destruct (String.eqb n m).
  - destruct (String.eqb_spec n0 n) as [->|Hne]; cbn.
    + rewrite IH. destruct (String.eqb n m); reflexivity.
    + rewrite IH. destruct (String.eqb_spec n0 m) as [->|]; [|reflexivity].
      apply eqb_false_neq in Hne. rewrite String.eqb_sym in Hne.
      now rewrite Hne.
Qed.

Lemma elem_of_storage_delete (nc : string * Cache) n (st : CacheStorage) :
  nc ∈ storage_delete n st -> nc ∈ st /\ nc.1 <> n.
Proof.
  induction st as [|[n0 c] st IH]; cbn.
  - intros H. now apply elem_of_nil in H.
  - destruct (String.eqb_spec n0 n) as [->|Hne].
    + intros H. destruct (IH H). split; [now right|assumption].
    + intros H. apply elem_of_cons in H as [->|H].
      * split; [now left|exact Hne].
      * destruct (IH H). split; [now right|assumption].
Qed.

Lemma storage_lookup_not_key m (st : CacheStorage) :
  m ∉ storage_keys st -> storage_lookup m st = None.
Proof.
  induction st as [|[n0 c] st IH]; cbn; [reflexivity|].
  intros H. apply not_elem_of_cons in H as [Hne Hrest].
  destruct (String.eqb_spec n0 m); [congruence|]. now apply IH.
Qed.

Lemma storage_lookup_purge m names (st : CacheStorage) :
  storage_lookup m (purge names st) =
  if negb (String.eqb m CACHE_NAME) && bool_decide (m ∈ names)
  then None else storage_lookup m st.
Proof.
  revert st. induction names as [|n names IH]; intros st.
  - cbn. rewrite bool_decide_eq_false_2 by apply not_elem_of_nil.
    now rewrite andb_false_r.
  - cbn [purge fold_left]. fold (purge names (purge_step st n)). rewrite IH.
    unfold purge_step.
    destruct (String.eqb_spec m CACHE_NAME) as [->|Hm]; cbn [negb andb].
    + destruct (String.eqb_spec n CACHE_NAME) as [->|Hn]; cbn [negb];
        [reflexivity|].
      rewrite storage_lookup_delete.
      apply eqb_false_neq in Hn. now rewrite Hn.
    + destruct (decide (m ∈ names)) as [Hin|Hin].
      * rewrite !bool_decide_eq_true_2; [reflexivity| |assumption].
        now right.
      * rewrite (bool_decide_eq_false_2 _ Hin).
        destruct (String.eqb_spec n m) as [->|Hnm].
        -- rewrite bool_decide_eq_true_2 by now left.
           apply eqb_false_neq in Hm. rewrite Hm. cbn [negb].
           rewrite storage_lookup_delete, String.eqb_refl.
           reflexivity.
        -- rewrite bool_decide_eq_false_2.
           2:{ intros H. apply elem_of_cons in H as [->|H]; contradiction. }
           destruct (negb (String.eqb n CACHE_NAME)); [|reflexivity].
           rewrite storage_lookup_delete.
           apply eqb_false_neq in Hnm. now rewrite Hnm.
Qed.

Lemma elem_of_purge (nc : string * Cache) names (st : CacheStorage) :
  nc ∈ purge names st -> nc ∈ st /\ (nc.1 = CACHE_NAME \/ nc.1 ∉ names).
Proof.
  revert st. induction names as [|n names IH]; intros st; cbn.
  - intros H. split; [exact H|]. right. apply not_elem_of_nil.
  - intros H. apply IH in H as [Hin Hor]. unfold purge_step in Hin.
    destruct (String.eqb_spec n CACHE_NAME) as [->|Hn]; cbn [negb] in Hin.
    + split; [exact Hin|]. destruct Hor as [Hc|Hnot]; [now left|].
      destruct (decide (nc.1 = CACHE_NAME)) as [Hc|Hc]; [now left|].
      right. intros H. apply elem_of_cons in H as [H|H]; contradiction.
    + apply elem_of_storage_delete in Hin as [Hin Hne].
      split; [exact Hin|]. destruct Hor as [Hc|Hnot]; [now left|].
      right. intros H. apply elem_of_cons in H as [H|H]; contradiction.
Qed.

Lemma purge_keeps_only_current (st : CacheStorage) :
  Forall (fun nc : string * Cache => nc.1 = CACHE_NAME)
         (purge (storage_keys st) st).
Proof.
  apply Forall_forall. intros nc H. apply elem_of_purge in H as [Hin [Hc|Hnot]].
  - exact Hc.
  - exfalso. apply Hnot. unfold storage_keys.
    apply list_elem_of_fmap. exists nc. split; [reflexivity|exact Hin].
Qed.

Lemma purge_current_names names (st : CacheStorage) :
  Forall (fun n => n = CACHE_NAME) names -> purge names st = st.
Proof.
  induction 1 as [|n names -> _ IH]; cbn; [reflexivity|]. exact IH.
Qed.

Lemma purge_twice (st : CacheStorage) :
  let st' := purge (storage_keys st) st in
  purge (storage_keys st') st' = st'.
Proof.
  intros st'. apply purge_current_names. unfold storage_keys.
  apply Forall_fmap. exact (purge_keeps_only_current st).
Qed.

(** C7: the activate handler deletes every cache whose name is not the
    current generation's. Afterwards no cache of another generation is left,
    so none of its entries can be retrieved; every entry of the current
    generation is retrieved as before; the queue is untouched; and activating
    once more changes nothing. *)
Theorem activate_purges_other_generations w :
  let w' := snd (on_activate w) in
  fst (on_activate w) = Settled (Resolved tt) /\
  Forall (fun nc : string * Cache => nc.1 = CACHE_NAME) (caches w') /\
  (forall name u,
      entry name u (caches w') =
      if String.eqb name CACHE_NAME then entry name u (caches w) else None) /\
  pending_sync w' = pending_sync w /\
  on_activate w' = (Settled (Resolved tt), w').
Proof.
  cbn zeta. rewrite on_activate_purges. cbn [fst snd].
  split; [reflexivity|]. split; [|split; [|split]].
  - cbn. apply purge_keeps_only_current.
  - intros name u. unfold entry. cbn [caches with_clients_claimed with_caches].
    rewrite storage_lookup_purge.
    destruct (String.eqb_spec name CACHE_NAME) as [->|Hn]; cbn [negb andb];
      [reflexivity|].
    destruct (decide (name ∈ storage_keys (caches w))) as [Hin|Hin].
    + now rewrite bool_decide_eq_true_2.
    + rewrite bool_decide_eq_false_2 by assumption.
      now rewrite storage_lookup_not_key.
  - reflexivity.
  - rewrite on_activate_purges. f_equal.
    cbn [caches with_clients_claimed with_caches].
    rewrite purge_twice. reflexivity.
Qed.

(** ** Installation: the manifest *)

Section Install.

Variable origin : string.
Variable net : Network.

(** Fetching the manifest touches the log of network calls only. *)
Lemma fetch_all_frame urls w :
  snd (fetch_all origin net urls w)
  = with_net_log (net_log (snd (fetch_all origin net urls w))) w.
Proof.
  revert w. induction urls as [|u urls IH]; intros w; cbn.
  - now destruct w.
  - unfold bind, fetch.
    destruct (net _ _) as [r|e]; [|reflexivity].
    destruct (ok r); [|reflexivity].
    match goal with |- context [fetch_all origin net urls ?w1] =>
      specialize (IH w1); destruct (fetch_all origin net urls w1) as [[rs|e] w2]
    end; cbn in *.
    + etransitivity; [exact IH|]. reflexivity.
    + etransitivity; [exact IH|]. reflexivity.
Qed.

(** One resource that fails makes the whole fetch of the manifest fail. *)
Lemma fetch_all_fails manifest : forall k u w,
  manifest !! k = Some u ->
  fetch_failed (net (length (net_log w) + k)%nat
                    (get_request (absolute origin u))) = true ->
  exists e, fst (fetch_all origin net manifest w) = Rejected e.
Proof.
  induction manifest as [|u0 rest IH]; intros k u w Hk Hfail.
  - discriminate.
  - cbn [fetch_all]. unfold bind at 1. unfold fetch at 1.
    destruct k as [|k]; cbn in Hk.
    + injection Hk as ->. rewrite Nat.add_0_r in Hfail.
      destruct (net _ _) as [r|e]; cbn in Hfail.
      * apply negb_true_iff in Hfail. rewrite Hfail.
        exists TypeError. reflexivity.
      * exists e. reflexivity.
    + destruct (net (length (net_log w)) _) as [r|e]; [|now exists e].
      destruct (ok r); [|now exists TypeError].
      set (w1 := with_net_log (net_log w ++ [get_request (absolute origin u0)]) w).
      assert (fetch_failed (net (length (net_log w1) + k)%nat
                                (get_request (absolute origin u))) = true)
        as Hfail1.
      { subst w1. cbn [net_log with_net_log]. rewrite length_app. cbn [length].
        replace (length (net_log w) + 1 + k)%nat
          with (length (net_log w) + S k)%nat by lia.
        exact Hfail. }
      destruct (IH k u w1 Hk Hfail1) as [e He].
      exists e. unfold bind.
      destruct (fetch_all origin net rest w1) as [[rs|e'] w2]; cbn in He;
        [discriminate|]. cbn. congruence.
Qed.

End Install.

Lemma entry_open name u n (st : CacheStorage) :
  entry name u (storage_open n st) = entry name u st.
Proof.
  unfold entry. rewrite storage_lookup_open.
  destruct (storage_lookup name st); [reflexivity|].
  destruct (String.eqb n name); [apply lookup_empty|reflexivity].
Qed.

Lemma install_with_rejects origin net manifest w e w2 :
  fetch_all origin net manifest
            (with_caches (storage_open CACHE_NAME (caches w)) w)
  = (Rejected e, w2) ->
  install_with origin net manifest w = (Settled (Rejected e), w2).
Proof.
  intros H.
  unfold install_with, hand_over, cache_addAll, bind, caches_open, modify.
  rewrite H. reflexivity.
Qed.

(** C8: when some resource of the manifest cannot be fetched (the network
    call for it rejects, or answers with a status that is not ok), the
    install step as a whole fails: the promise handed to waitUntil rejects,
    no entry at all has been written to the cache store, not even for the
    resources that did arrive, and skipWaiting has not been called. *)
Theorem install_is_all_or_nothing origin net manifest w k u :
  manifest !! k = Some u ->
  fetch_failed (net (length (net_log w) + k)%nat
                    (get_request (absolute origin u))) = true ->
  let w' := snd (install_with origin net manifest w) in
  (exists e, fst (install_with origin net manifest w) = Settled (Rejected e)) /\
  (forall name v, entry name v (caches w') = entry name v (caches w)) /\
  skipped_waiting w' = skipped_waiting w /\
  pending_sync w' = pending_sync w.
Proof.
  intros Hk Hfail. cbn zeta.
  set (w1 := with_caches (storage_open CACHE_NAME (caches w)) w).
  destruct (fetch_all_fails origin net manifest k u w1 Hk Hfail) as [e He].
  pose proof (fetch_all_frame origin net manifest w1) as Hframe.
  destruct (fetch_all origin net manifest w1) as [[rs|e'] w2] eqn:Hf;
    cbn in He; [discriminate|].
  rewrite (install_with_rejects origin net manifest w e' w2 Hf).
  cbn [fst snd] in *. split; [now exists e'|].
  rewrite Hframe. cbn. split; [|split; reflexivity].
  intros name v. apply entry_open.
Qed.

Lemma install_is_all_or_nothing_witness :
  let w' := snd (install_with site styles_missing urlsToCache empty_world) in
  (exists e, fst (install_with site styles_missing urlsToCache empty_world)
             = Settled (Rejected e)) /\
  (forall name v, entry name v (caches w') = entry name v (caches empty_world)) /\
  skipped_waiting w' = skipped_waiting empty_world /\
  pending_sync w' = pending_sync empty_world.
Proof.
  apply (install_is_all_or_nothing
           site styles_missing urlsToCache empty_world 2%nat "/styles.css").
  - reflexivity.
  - vm_compute. reflexivity.
Defined.

(** When every resource arrives, the install step succeeds and the whole
    manifest is in the current cache. *)
Example install_succeeds_online :
  let '(result, w') := on_install site always_online empty_world in
  result = Settled (Resolved tt) /\
  skipped_waiting w' = true /\
  forallb (fun path =>
             bool_decide (is_Some (entry CACHE_NAME (site +:+ path) (caches w'))))
          urlsToCache = true.
Proof. vm_compute. repeat split. Qed.

(** ** Background sync: the drain *)

(** The drain as the source has it: the call of [getAll] on the database
    object raises a TypeError, the catch around the body logs it, and the
    promise resolves. Nothing is read from the store, sent or deleted. *)
Lemma syncReadingProgress_logs net w :
  syncReadingProgress net w =
  (Resolved tt, with_console (console w ++ [TypeError]) w).
Proof. reflexivity. Qed.


Lemma on_sync_cases net event w :
  on_sync net event w = (Returned, w) \/
  on_sync net event w =
  (Settled (Resolved tt), with_console (console w ++ [TypeError]) w).
Proof.
  unfold on_sync. destruct (String.eqb _ _); [right|now left].
  unfold hand_over. now rewrite syncReadingProgress_logs.
Qed.

(** C3, at the failing input: three queued operations, of which the replay
    of the second would not reach the server. The drain never gets to replay
    anything: [db.getAll] is not a method of the object [openIDB] resolves
    with, the TypeError is caught and logged, and the handler is done. No
    request has been sent and all three operations are still queued, the
    first included, where the claim has operation 1 removed. *)
Theorem drain_removes_nothing :
  let w' := snd (on_sync second_unreachable sync_reading_progress queued_world) in
  pending_sync queued_world = [operation_1; operation_2; operation_3] /\
  second_unreachable 1%nat (replay_request operation_2) = Rejected TypeError /\
  fst (on_sync second_unreachable sync_reading_progress queued_world)
  = Settled (Resolved tt) /\
  pending_sync w' = [operation_1; operation_2; operation_3] /\
  pending_sync w' <> [operation_2; operation_3] /\
  net_log w' = net_log queued_world /\
  console w' = console queued_world ++ [TypeError].
Proof.
  cbn zeta. repeat split; try reflexivity.
  vm_compute. discriminate.
Qed.

(** ** Degraded responses *)

Section Degraded.

Variable origin : string.
Variable net : Network.
Variable event : FetchEvent.
Variable w : World.

Let rq := request event.

Hypothesis is_get : method rq = "GET".
Hypothesis handled : startsWith (url rq) "chrome-extension://" = false.
Hypothesis miss : storage_match (url rq) (caches w) = None.
Variable e : JsError.
Hypothesis unreachable : net (length (net_log w)) rq = Rejected e.

(** A request that accepts HTML gets whatever the cache store holds under
    '/offline.html': that page if it is there, and no response at all
    (undefined) if it is not. *)
Lemma document_fallback accept :
  headers_get "accept" (req_headers rq) = Some accept ->
  includes accept "text/html" = true ->
  fst (on_fetch origin net event w)
  = Settled (Resolved (storage_match (absolute origin "/offline.html") (caches w))).
Proof.
  intros Ha Hi. rewrite on_fetch_miss by assumption. unfold hand_over.
  rewrite (network_branch_rejected origin net event w e unreachable).
  fold rq. rewrite Ha, Hi. reflexivity.
Qed.

(** A request that accepts something else gets the 503 response with a
    plain-text body. *)
Lemma other_fallback accept :
  headers_get "accept" (req_headers rq) = Some accept ->
  includes accept "text/html" = false ->
  fst (on_fetch origin net event w) = Settled (Resolved (Some offline_response)).
Proof.
  intros Ha Hi. rewrite on_fetch_miss by assumption. unfold hand_over.
  rewrite (network_branch_rejected origin net event w e unreachable).
  fold rq. rewrite Ha, Hi. reflexivity.
Qed.

(** A request without an Accept header gets no response: reading the
    header yields null, and calling [includes] on it raises a TypeError
    inside the catch callback, which rejects the promise handed to
    respondWith. *)
Lemma no_accept_header_rejects :
  headers_get "accept" (req_headers rq) = None ->
  fst (on_fetch origin net event w) = Settled (Rejected TypeError).
Proof.
  intros Ha. rewrite on_fetch_miss by assumption. unfold hand_over.
  rewrite (network_branch_rejected origin net event w e unreachable).
  fold rq. rewrite Ha. reflexivity.
Qed.

End Degraded.

Lemma offline_response_is_503_plain_text :
  status offline_response = 503 /\
  headers_get "content-type" (resp_headers offline_response) = Some "text/plain" /\
  resp_body offline_response = Text "You are offline".
Proof. repeat split. Qed.

(** *** The offline page and the manifest *)

Lemma offline_page_not_in_manifest : "/offline.html" ∉ urlsToCache.
Proof.
  apply (bool_decide_unpack ("/offline.html" ∉ urlsToCache)). vm_compute. exact I.
Qed.

Lemma storage_match_open u n (st : CacheStorage) :
  storage_match u (storage_open n st) = storage_match u st.
Proof.
  unfold storage_open. destruct (storage_lookup n st); [reflexivity|].
  induction st as [|[n0 c] st IH]; cbn.
  - now rewrite lookup_empty.
  - destruct (c !! u); [reflexivity|exact IH].
Qed.

Lemma storage_match_put_ne u name k r (st : CacheStorage) :
  k <> u -> storage_match u (storage_put name k r st) = storage_match u st.
Proof.
  intros Hne. induction st as [|[n0 c] st IH]; cbn; [reflexivity|].
  destruct (String.eqb n0 name); cbn.
  - now rewrite lookup_insert_ne.
  - now rewrite IH.
Qed.

Section Manifest.

Variable origin : string.
Variable net : Network.

Lemma fetch_all_keys urls : forall w entries w',
  fetch_all origin net urls w = (Resolved entries, w') ->
  map fst entries = map (absolute origin) urls.
Proof.
  induction urls as [|u urls IH]; intros w entries w'.
  - cbn. now intros [= <- <-].
  - cbn [fetch_all]. unfold bind at 1. unfold fetch at 1.
    destruct (net _ _) as [r|e]; [|discriminate].
    destruct (ok r); [|discriminate].
    unfold bind.
    destruct (fetch_all origin net urls _) as [[rs|e] w2] eqn:Hrest;
      [|discriminate].
    intros [= <- <-]. cbn. f_equal. exact (IH _ _ _ Hrest).
Qed.

Lemma put_all_keeps_other_keys u name entries : forall w o w',
  u ∉ map fst entries ->
  put_all name entries w = (o, w') ->
  storage_match u (caches w') = storage_match u (caches w).
Proof.
  induction entries as [|[k r] entries IH]; intros w o w' Hnot.
  - cbn. now intros [= <- <-].
  - cbn in Hnot. apply not_elem_of_cons in Hnot as [Hne Hnot].
    cbn [put_all]. unfold bind, cache_put, modify. intros H.
    rewrite (IH _ _ _ Hnot H). cbn.
    apply storage_match_put_ne. congruence.
Qed.

Lemma install_with_cases manifest w :
  install_with origin net manifest w =
  match fetch_all origin net manifest
                  (with_caches (storage_open CACHE_NAME (caches w)) w) with
  | (Resolved entries, w2) =>
      match put_all CACHE_NAME entries w2 with
      | (Resolved _, w3) => (Settled (Resolved tt), with_skipped_waiting true w3)
      | (Rejected e, w3) => (Settled (Rejected e), w3)
      end
  | (Rejected e, w2) => (Settled (Rejected e), w2)
  end.
Proof.
  unfold install_with, hand_over, cache_addAll, bind, caches_open, skipWaiting,
    modify.
  destruct (fetch_all origin net manifest _) as [[entries|e] w2];
    [|reflexivity].
  destruct (put_all CACHE_NAME entries w2) as [[[]|e] w3]; reflexivity.
Qed.

(** Installing never brings in the offline page: the manifest does not
    list it. *)
Lemma install_never_stores_offline_page w :
  storage_match (absolute origin "/offline.html") (caches w) = None ->
  storage_match (absolute origin "/offline.html")
                (caches (snd (on_install origin net w))) = None.
Proof.
  intros Hnone. unfold on_install. rewrite install_with_cases.
  set (w1 := with_caches (storage_open CACHE_NAME (caches w)) w).
  assert (storage_match (absolute origin "/offline.html") (caches w1) = None)
    as Hnone1.
  { subst w1. cbn. now rewrite storage_match_open. }
  pose proof (fetch_all_frame origin net urlsToCache w1) as Hframe.
  destruct (fetch_all origin net urlsToCache w1) as [[entries|e] w2] eqn:Hf.
  - apply fetch_all_keys in Hf. cbn [snd] in Hframe.
    assert (storage_match (absolute origin "/offline.html") (caches w2) = None)
      as Hnone2.
    { rewrite Hframe. exact Hnone1. }
    assert (absolute origin "/offline.html" ∉ map fst entries) as Hnot.
    { rewrite Hf. intros Hin.
      apply list_elem_of_fmap in Hin as (p & Hp' & Hin).
      unfold absolute in Hp'. apply (inj (String.append origin)) in Hp' as <-.
      exact (offline_page_not_in_manifest Hin). }
    destruct (put_all CACHE_NAME entries w2) as [[[]|e] w3] eqn:Hp; cbn;
      rewrite (put_all_keeps_other_keys _ _ _ _ _ _ Hnot Hp); exact Hnone2.
  - cbn in *. rewrite Hframe. exact Hnone1.
Qed.

End Manifest.

(** C2, at the failing input: the worker has installed with every resource
    of the manifest fetched; the reader then asks for a page that is not in
    the cache while the network is down. The handler answers with what
    [caches.match('/offline.html')] yields, and since the manifest does not
    list that page the answer is undefined: no response, and no offline
    placeholder. *)
Theorem offline_document_request_gets_no_placeholder :
  fst (on_install site always_online empty_world) = Settled (Resolved tt) /\
  storage_match (url (request (get_page "/library.html"))) (caches installed_world)
  = None /\
  always_offline (length (net_log installed_world)) (request (get_page "/library.html"))
  = Rejected TypeError /\
  storage_match (absolute site "/offline.html") (caches installed_world) = None /\
  fst (on_fetch site always_offline (get_page "/library.html") installed_world)
  = Settled (Resolved None).
Proof.
  split; [vm_compute; reflexivity|].
  split; [vm_compute; reflexivity|].
  split; [reflexivity|].
  split.
  - apply install_never_stores_offline_page. reflexivity.
  - vm_compute. reflexivity.
Qed.

(** ** Faults *)

Lemma on_push_invalid_json text w :
  on_push (mkPushEvent (Some (InvalidJson text))) w = (Threw SyntaxError, w).
Proof. reflexivity. Qed.

Lemma on_push_null w :
  on_push (mkPushEvent (Some (ValidJson JNull))) w = (Threw TypeError, w).
Proof. reflexivity. Qed.

Lemma on_push_no_data w :
  on_push (mkPushEvent None) w = (Returned, w).
Proof. reflexivity. Qed.

Lemma on_push_object fields w :
  on_push (mkPushEvent (Some (ValidJson (JObj fields)))) w =
  (Settled (Resolved tt),
   with_display_requests
     (display_requests w ++
      [mkDisplayRequest
         (field "title" fields)
         (mkOptions (field "body" fields)
                    "/assets/icons/icon-192x192.png"
                    "/assets/icons/badge-72x72.png"
                    [100; 50; 100]
                    (mkNotificationData (clock w) (field "id" fields))
                    (or_empty_array (field "actions" fields)))])
     w).
Proof. reflexivity. Qed.

(** C4, at the failing inputs. A push whose payload is not valid JSON makes
    [event.data.json()] raise a SyntaxError that nothing catches: the
    exception leaves the handler. (A payload that is the JSON text null does
    the same with a TypeError.) A GET request without an Accept header, not
    in the cache, while the network is down, makes the catch callback raise a
    TypeError: the promise handed to respondWith rejects, and the page gets
    no response. *)
Theorem errors_escape_the_handlers :
  (forall text w,
      on_push (mkPushEvent (Some (InvalidJson text))) w = (Threw SyntaxError, w)) /\
  (forall w,
      on_push (mkPushEvent (Some (ValidJson JNull))) w = (Threw TypeError, w)) /\
  headers_get "accept" (req_headers (request get_without_accept)) = None /\
  on_fetch site always_offline get_without_accept empty_world
  = (Settled (Rejected TypeError),
     with_net_log [request get_without_accept] empty_world).
Proof.
  split; [exact on_push_invalid_json|].
  split; [exact on_push_null|].
  split; reflexivity.
Qed.

(** ** Push payloads *)

(** C5, counterexample: the payload [{}] is displayed. *)
Lemma empty_object_payload_is_displayed :
  display_requests (snd (on_push (mkPushEvent (Some (ValidJson (JObj [])))) empty_world))
  <> display_requests empty_world.
Proof. cbn. discriminate. Qed.

(** C5, as the code has it. A push event without data is a no-op. A payload
    that is not valid JSON leaves the world as it was, so no display request
    is made. A payload that parses to an object makes exactly one display
    request, whatever fields it has: for [{}] the title, the body and the
    correlation id are undefined and the action list is empty. *)
Theorem push_display_requests :
  (forall w, on_push (mkPushEvent None) w = (Returned, w)) /\
  (forall text w,
      snd (on_push (mkPushEvent (Some (InvalidJson text))) w) = w) /\
  (forall fields w,
      exists dr,
        fst (on_push (mkPushEvent (Some (ValidJson (JObj fields)))) w)
        = Settled (Resolved tt) /\
        display_requests (snd (on_push (mkPushEvent (Some (ValidJson (JObj fields)))) w))
        = display_requests w ++ [dr] /\
        title dr = field "title" fields /\
        opt_body (options dr) = field "body" fields /\
        primaryKey (opt_data (options dr)) = field "id" fields) /\
  (forall w,
      display_requests (snd (on_push (mkPushEvent (Some (ValidJson (JObj [])))) w))
      = display_requests w ++
        [mkDisplayRequest None
           (mkOptions None "/assets/icons/icon-192x192.png"
                      "/assets/icons/badge-72x72.png" [100; 50; 100]
                      (mkNotificationData (clock w) None) (JArr []))]).
Proof.
  split; [exact on_push_no_data|].
  split; [intros text w; now rewrite on_push_invalid_json|].
  split.
  - intros fields w. rewrite on_push_object. eexists. repeat split.
  - intros w. now rewrite on_push_object.
Qed.

(** A payload with the fields of the schema is displayed with its id as
    correlation id. *)
Example push_with_id_42 :
  let payload := JObj [("title", JStr "T"); ("body", JStr "B"); ("id", JStr "42")] in
  map (fun dr => primaryKey (opt_data (options dr)))
      (display_requests (snd (on_push (mkPushEvent (Some (ValidJson payload)))
                                      empty_world)))
  = [Some (JStr "42")].
Proof. reflexivity. Qed.

(** ** The queue has no producer *)

Lemma put_all_pending_sync name entries : forall w o w',
  put_all name entries w = (o, w') -> pending_sync w' = pending_sync w.
Proof.
  induction entries as [|[k r] entries IH]; intros w o w'.
  - cbn. now intros [= <- <-].
  - cbn [put_all]. unfold bind, cache_put, modify. intros H.
    now rewrite (IH _ _ _ H).
Qed.

Lemma on_install_pending_sync origin net w :
  pending_sync (snd (on_install origin net w)) = pending_sync w.
Proof.
  unfold on_install. rewrite install_with_cases.
  pose proof (fetch_all_frame origin net urlsToCache
                (with_caches (storage_open CACHE_NAME (caches w)) w)) as Hframe.
  destruct (fetch_all origin net urlsToCache _) as [[entries|e] w2].
  - cbn [snd] in Hframe.
    destruct (put_all CACHE_NAME entries w2) as [[[]|e] w3] eqn:Hp; cbn;
      rewrite (put_all_pending_sync _ _ _ _ _ Hp), Hframe; reflexivity.
  - cbn in *. now rewrite Hframe.
Qed.

Lemma on_push_pending_sync event w :
  pending_sync (snd (on_push event w)) = pending_sync w.
Proof.
  unfold on_push. destruct (push_data event) as [d|]; [|reflexivity].
  destruct (then_ _ _); reflexivity.
Qed.

Lemma on_sync_pending_sync net event w :
  (length (pending_sync (snd (on_sync net event w))) <= length (pending_sync w))%nat.
Proof.
  destruct (on_sync_cases net event w) as [-> | ->]; cbn; lia.
Qed.

(** No handler of the worker ever adds a record to 'pending_sync': four of
    them leave the store as it is, and the sync handler only deletes. *)
Lemma no_handler_appends_to_queue :
  (forall origin net event w,
      pending_sync (snd (on_fetch origin net event w)) = pending_sync w) /\
  (forall origin net w,
      pending_sync (snd (on_install origin net w)) = pending_sync w) /\
  (forall w, pending_sync (snd (on_activate w)) = pending_sync w) /\
  (forall event w, pending_sync (snd (on_push event w)) = pending_sync w) /\
  (forall net event w,
      (length (pending_sync (snd (on_sync net event w)))
       <= length (pending_sync w))%nat).
Proof.
  split; [exact on_fetch_pending_sync|].
  split; [exact on_install_pending_sync|].
  split; [intros w; now rewrite on_activate_purges|].
  split; [exact on_push_pending_sync|exact on_sync_pending_sync].
Qed.

(** ** Cache first, over whole runs of the worker *)

Lemma prefix_app (a s t : string) :
  String.prefix a s = true -> String.prefix a (s +:+ t) = true.
Proof.
  revert a. induction s as [|d s IH]; intros [|c a]; simpl.
  - intros _. now destruct t.
  - discriminate.
  - reflexivity.
  - destruct (Ascii.ascii_dec c d); [apply IH|discriminate].
Qed.

Lemma put_all_keeps_keys name entries : forall w o w',
  Forall (fun e : string * Response =>
            startsWith e.1 "chrome-extension://" = false) entries ->
  no_extension_keys (caches w) ->
  put_all name entries w = (o, w') ->
  no_extension_keys (caches w').
Proof.
  induction entries as [|[k r] entries IH]; intros w o w' Hall Hw.
  - cbn. now intros [= <- <-].
  - apply Forall_cons in Hall as [Hk Hall].
    cbn [put_all]. unfold bind, cache_put, modify. intros H.
    apply (IH _ _ _ Hall) in H; [exact H|].
    cbn. now apply no_extension_keys_put.
Qed.

Lemma on_sync_caches net event w :
  caches (snd (on_sync net event w)) = caches w.
Proof.
  destruct (on_sync_cases net event w) as [-> | ->]; reflexivity.
Qed.

Lemma on_push_caches event w :
  caches (snd (on_push event w)) = caches w.
Proof.
  unfold on_push. destruct (push_data event) as [d|]; [|reflexivity].
  destruct (then_ _ _); reflexivity.
Qed.

Lemma on_activate_keeps_keys w :
  no_extension_keys (caches w) ->
  no_extension_keys (caches (snd (on_activate w))).
Proof.
  intros Hw. rewrite on_activate_purges. cbn.
  unfold no_extension_keys in *. rewrite Forall_forall in *.
  intros nc Hin. apply elem_of_purge in Hin as [Hin _]. now apply Hw.
Qed.

Lemma on_install_keeps_keys origin net w :
  String.prefix "http" origin = true ->
  no_extension_keys (caches w) ->
  no_extension_keys (caches (snd (on_install origin net w))).
Proof.
  intros Horigin Hw. unfold on_install. rewrite install_with_cases.
  set (w1 := with_caches (storage_open CACHE_NAME (caches w)) w).
  assert (no_extension_keys (caches w1)) as Hw1.
  { subst w1. cbn. now apply no_extension_keys_open. }
  pose proof (fetch_all_frame origin net urlsToCache w1) as Hframe.
  destruct (fetch_all origin net urlsToCache w1) as [[entries|e] w2] eqn:Hf.
  - apply fetch_all_keys in Hf. cbn [snd] in Hframe.
    assert (no_extension_keys (caches w2)) as Hw2.
    { rewrite Hframe. exact Hw1. }
    assert (Forall (fun e : string * Response =>
                      startsWith e.1 "chrome-extension://" = false) entries)
      as Hall.
    { apply Forall_forall. intros [k r] Hin.
      assert (k ∈ map fst entries) as Hk.
      { apply list_elem_of_fmap. now exists (k, r). }
      rewrite Hf in Hk. apply list_elem_of_fmap in Hk as (p & -> & _).
      cbn. apply prefix_http_not_extension. now apply prefix_app. }
    destruct (put_all CACHE_NAME entries w2) as [[[]|e] w3] eqn:Hp; cbn;
      exact (put_all_keeps_keys _ _ _ _ _ Hall Hw2 Hp).
  - cbn in *. rewrite Hframe. exact Hw1.
Qed.

(** Whatever events a worker served over http(s) handles, starting from a
    cache store without chrome-extension:// keys (an empty one, say), no
    cache ever holds such a key. *)
Lemma no_extension_keys_invariant origin net evs w :
  String.prefix "http" origin = true ->
  no_extension_keys (caches w) ->
  no_extension_keys (caches (run_events origin net evs w)).
Proof.
  intros Horigin. revert w. induction evs as [|ev evs IH]; intros w Hw.
  - exact Hw.
  - cbn. apply IH. destruct ev as [| |event|event|event]; cbn.
    + now apply on_install_keeps_keys.
    + now apply on_activate_keeps_keys.
    + now apply on_fetch_keeps_keys.
    + now rewrite on_sync_caches.
    + now rewrite on_push_caches.
Qed.

(** Cache first, for every world the worker can reach. *)
Lemma cache_first_in_reachable_worlds origin net evs event r :
  String.prefix "http" origin = true ->
  let w := run_events origin net evs empty_world in
  method (request event) = "GET" ->
  storage_match (url (request event)) (caches w) = Some r ->
  on_fetch origin net event w = (Settled (Resolved (Some r)), w).
Proof.
  intros Horigin w Hm Hhit. apply on_fetch_hit; [exact Hm| |exact Hhit].
  apply (cached_key_not_extension _ r (caches w)); [|exact Hhit].
  apply no_extension_keys_invariant; [exact Horigin|]. constructor.
Qed.

(** * More of the worker *)

(** ** The fetch handler: populate, pass through, fall back *)

Lemma storage_match_put_present u name r (st : CacheStorage) :
  storage_match u st = None ->
  is_Some (storage_lookup name st) ->
  storage_match u (storage_put name u r st) = Some r.
Proof.
  induction st as [|[n0 c0] st IH]; cbn.
  - intros _ [c Hc]. discriminate.
  - destruct (c0 !! u) eqn:Hu; [discriminate|]. intros Hmiss Hl.
    destruct (String.eqb n0 name); cbn.
    + now rewrite lookup_insert_eq.
    + rewrite Hu. now apply IH.
Qed.

Lemma storage_match_put_open u r (st : CacheStorage) :
  storage_match u st = None ->
  storage_match u (storage_put CACHE_NAME u r (storage_open CACHE_NAME st)) = Some r.
Proof.
  intros Hmiss. apply storage_match_put_present.
  - now rewrite storage_match_open.
  - rewrite storage_lookup_open.
    destruct (storage_lookup CACHE_NAME st); [eauto|].
    rewrite String.eqb_refl. eauto.
Qed.

Lemma is_valid_response_true r :
  is_valid_response r = true <-> status r = 200 /\ rtype r = basic.
Proof.
  unfold is_valid_response. rewrite andb_true_iff, Z.eqb_eq, bool_decide_eq_true.
  reflexivity.
Qed.

(** The handler with its write landed is the handler at the moment it
    settles followed by the task it left behind: same answer to the page,
    same world. *)
Lemma on_fetch_lands origin net event w :
  on_fetch origin net event w =
  (handed (fst (on_fetch_settles origin net event w)),
   landed (on_fetch_settles origin net event w)).
Proof.
  unfold on_fetch, on_fetch_settles.
  destruct (negb (String.eqb _ _)); [reflexivity|].
  destruct (startsWith _ _); [reflexivity|].
  unfold hand_over, bind, caches_match, gets, ret.
  destruct (storage_match _ _) as [c|]; [reflexivity|].
  unfold network_branch, network_branch_settles, catch, bind, fetch.
  destruct (net _ _) as [r|e]; cbn.
  - destruct (is_valid_response r); reflexivity.
  - destruct (headers_get _ _) as [a|]; [|reflexivity].
    destruct (includes _ _); reflexivity.
Qed.

(** X1: round trip through the cache, and what it waits for. When a GET
    request misses the cache and the network answers it with status 200 and
    type basic, the page gets that response while the cache store is still
    as it was: the write has been started, not made. The same request asked
    again at that moment misses the cache and goes to the network once more.
    Once the write has landed, the same request is answered with the same
    response from the cache, whatever the network does then, without any
    further network call. *)
Theorem fetched_response_is_served_from_cache_next origin net event w r :
  method (request event) = "GET" ->
  startsWith (url (request event)) "chrome-extension://" = false ->
  storage_match (url (request event)) (caches w) = None ->
  net (length (net_log w)) (request event) = Resolved r ->
  status r = 200 -> rtype r = basic ->
  let settled := snd (on_fetch_settles origin net event w) in
  let w1 := landed (on_fetch_settles origin net event w) in
  fst (on_fetch_settles origin net event w)
  = Settled (Resolved (Some r, Some (cache_write event r))) /\
  caches settled = caches w /\
  (forall net',
     net_log (snd (on_fetch_settles origin net' event settled))
     = net_log settled ++ [request event]) /\
  w1 = snd (cache_write event r settled) /\
  w1 = snd (on_fetch origin net event w) /\
  forall net', on_fetch origin net' event w1 = (Settled (Resolved (Some r)), w1).
Proof.
  intros Hm Hx Hmiss Hnet Hs Ht. cbn zeta.
  assert (is_valid_response r = true) as Hv by now apply is_valid_response_true.
  assert (on_fetch_settles origin net event w =
          (Settled (Resolved (Some r, Some (cache_write event r))),
           with_net_log (net_log w ++ [request event]) w)) as Hsettles.
  { unfold on_fetch_settles. rewrite Hm, Hx, String.eqb_refl. cbn [negb].
    unfold hand_over, bind, caches_match, gets. rewrite Hmiss.
    unfold network_branch_settles, catch, bind, fetch. rewrite Hnet, Hv.
    reflexivity. }
  rewrite on_fetch_lands, Hsettles. cbn [fst snd landed].
  split; [reflexivity|]. split; [reflexivity|]. split.
  - intros net'. unfold on_fetch_settles.
    rewrite Hm, Hx, String.eqb_refl. cbn [negb].
    unfold hand_over, bind, caches_match, gets. cbn [caches with_net_log].
    rewrite Hmiss.
    unfold network_branch_settles, catch, bind, fetch.
    destruct (net' _ _) as [r'|e]; cbn.
    + destruct (is_valid_response r'); reflexivity.
    + destruct (headers_get _ _) as [a|]; [|reflexivity].
      destruct (includes _ _); reflexivity.
  - split; [reflexivity|]. split; [reflexivity|]. intros net'.
    apply on_fetch_hit; [exact Hm|exact Hx|].
    cbn. now apply storage_match_put_open.
Qed.

Lemma fetched_response_is_served_from_cache_next_witness :
  let settled := snd (on_fetch_settles site always_online get_styles empty_world) in
  let w1 := landed (on_fetch_settles site always_online get_styles empty_world) in
  fst (on_fetch_settles site always_online get_styles empty_world)
  = Settled (Resolved (Some (page (site +:+ "/book.css")),
                       Some (cache_write get_styles (page (site +:+ "/book.css"))))) /\
  caches settled = caches empty_world /\
  (forall net',
     net_log (snd (on_fetch_settles site net' get_styles settled))
     = net_log settled ++ [request get_styles]) /\
  w1 = snd (cache_write get_styles (page (site +:+ "/book.css")) settled) /\
  w1 = snd (on_fetch site always_online get_styles empty_world) /\
  forall net', on_fetch site net' get_styles w1
               = (Settled (Resolved (Some (page (site +:+ "/book.css")))), w1).
Proof.
  apply (fetched_response_is_served_from_cache_next
           site always_online get_styles empty_world); reflexivity.
Defined.

(** X2: on a cache miss the page gets the network's own answer. Whatever
    response the network gives to a handled GET request, a 404 or an opaque
    one included, is handed to the page unchanged; exactly one network call
    was made, for the request of the event. *)
Theorem network_answer_is_passed_through origin net event w r :
  method (request event) = "GET" ->
  startsWith (url (request event)) "chrome-extension://" = false ->
  storage_match (url (request event)) (caches w) = None ->
  net (length (net_log w)) (request event) = Resolved r ->
  fst (on_fetch origin net event w) = Settled (Resolved (Some r)) /\
  net_log (snd (on_fetch origin net event w)) = net_log w ++ [request event].
Proof.
  intros Hm Hx Hmiss Hnet. rewrite on_fetch_miss by assumption. unfold hand_over.
  destruct (is_valid_response r) eqn:Hv.
  - rewrite (network_branch_valid origin net event w r Hnet Hv). now split.
  - rewrite (network_branch_invalid origin net event w r Hnet Hv). now split.
Qed.

Lemma network_answer_is_passed_through_witness :
  fst (on_fetch site styles_missing (get_page "/styles.css") empty_world)
  = Settled (Resolved (Some (mkResponse 404 "Not Found" basic [] (Text "not found")))) /\
  net_log (snd (on_fetch site styles_missing (get_page "/styles.css") empty_world))
  = net_log empty_world ++ [request (get_page "/styles.css")].
Proof.
  apply (network_answer_is_passed_through
           site styles_missing (get_page "/styles.css") empty_world);
    reflexivity.
Defined.

Lemma network_branch_net_log origin net event w :
  net_log (snd (network_branch origin net event w)) = net_log w ++ [request event].
Proof.
  destruct (net (length (net_log w)) (request event)) as [r|e] eqn:Hnet.
  - destruct (is_valid_response r) eqn:Hv.
    + now rewrite (network_branch_valid origin net event w r Hnet Hv).
    + now rewrite (network_branch_invalid origin net event w r Hnet Hv).
  - rewrite (network_branch_rejected origin net event w e Hnet).
    destruct (headers_get _ _); [destruct (includes _ _)|]; reflexivity.
Qed.

(** X3: the fetch handler makes at most one network call per event, and
    that call is for the request of the event itself. It makes none unless
    the request is a GET that misses the cache. *)
Theorem fetch_makes_at_most_one_call origin net event w :
  net_log (snd (on_fetch origin net event w)) = net_log w \/
  (net_log (snd (on_fetch origin net event w)) = net_log w ++ [request event] /\
   method (request event) = "GET" /\
   storage_match (url (request event)) (caches w) = None).
Proof.
  fetch_guards origin net event w; try (left; reflexivity).
  right. unfold hand_over.
  pose proof (network_branch_net_log origin net event w) as H.
  destruct (network_branch _ _ _ _). cbn in *. repeat split; assumption.
Qed.

(** X4: the generic degraded response. A handled GET request that misses
    the cache while the network is unreachable, and whose Accept header does
    not mention text/html, is answered with a response of status 503,
    'Service Unavailable', content type text/plain and body 'You are
    offline'; the cache store is left as it was. *)
Theorem unreachable_non_document_gets_503 origin net event w e accept :
  method (request event) = "GET" ->
  startsWith (url (request event)) "chrome-extension://" = false ->
  storage_match (url (request event)) (caches w) = None ->
  net (length (net_log w)) (request event) = Rejected e ->
  headers_get "accept" (req_headers (request event)) = Some accept ->
  includes accept "text/html" = false ->
  exists response,
    fst (on_fetch origin net event w) = Settled (Resolved (Some response)) /\
    status response = 503 /\
    statusText response = "Service Unavailable" /\
    headers_get "content-type" (resp_headers response) = Some "text/plain" /\
    resp_body response = Text "You are offline" /\
    caches (snd (on_fetch origin net event w)) = caches w.
Proof.
  intros Hm Hx Hmiss Hnet Ha Hi. exists offline_response.
  rewrite on_fetch_miss by assumption. unfold hand_over.
  rewrite (network_branch_rejected origin net event w e Hnet), Ha, Hi.
  repeat split.
Qed.

Lemma unreachable_non_document_gets_503_witness :
  exists response,
    fst (on_fetch site always_offline get_styles empty_world)
    = Settled (Resolved (Some response)) /\
    status response = 503 /\
    statusText response = "Service Unavailable" /\
    headers_get "content-type" (resp_headers response) = Some "text/plain" /\
    resp_body response = Text "You are offline" /\
    caches (snd (on_fetch site always_offline get_styles empty_world))
    = caches empty_world.
Proof.
  apply (unreachable_non_document_gets_503
           site always_offline get_styles empty_world TypeError "text/css");
    reflexivity.
Defined.

(** X5: the offline page. A handled GET request that accepts text/html,
    misses the cache while the network is unreachable, is answered with the
    response the cache store holds under '/offline.html' when there is one,
    and the cache store is left as it was. *)
Theorem unreachable_document_gets_cached_offline_page
        origin net event w e accept placeholder :
  method (request event) = "GET" ->
  startsWith (url (request event)) "chrome-extension://" = false ->
  storage_match (url (request event)) (caches w) = None ->
  net (length (net_log w)) (request event) = Rejected e ->
  headers_get "accept" (req_headers (request event)) = Some accept ->
  includes accept "text/html" = true ->
  storage_match (absolute origin "/offline.html") (caches w) = Some placeholder ->
  fst (on_fetch origin net event w) = Settled (Resolved (Some placeholder)) /\
  caches (snd (on_fetch origin net event w)) = caches w.
Proof.
  intros Hm Hx Hmiss Hnet Ha Hi Hp.
  rewrite on_fetch_miss by assumption. unfold hand_over.
  rewrite (network_branch_rejected origin net event w e Hnet), Ha, Hi, Hp.
  split; reflexivity.
Qed.

Lemma unreachable_document_gets_cached_offline_page_witness :
  fst (on_fetch site always_offline (get_page "/library.html") offline_ready_world)
  = Settled (Resolved (Some (page (site +:+ "/offline.html")))) /\
  caches (snd (on_fetch site always_offline (get_page "/library.html")
                        offline_ready_world))
  = caches offline_ready_world.
Proof.
  apply (unreachable_document_gets_cached_offline_page
           site always_offline (get_page "/library.html") offline_ready_world
           TypeError "text/html");
    vm_compute; reflexivity.
Defined.

(** ** The drain, as it behaves *)

Lemma syncReadingProgress_resolves net w :
  fst (syncReadingProgress net w) = Resolved tt.
Proof.
  now rewrite syncReadingProgress_logs.
Qed.

(** X6: the sync handler never reports a failure. Whatever the tag, the
    queue and the network, it either returns at once or hands waitUntil a
    promise that resolves: an error of the drain is caught and logged to the
    console, never passed on to the event. *)
Theorem sync_never_reports_failure net event w :
  fst (on_sync net event w) = Returned \/
  fst (on_sync net event w) = Settled (Resolved tt).
Proof.
  unfold on_sync. destruct (String.eqb _ _); [right|now left].
  unfold hand_over.
  pose proof (syncReadingProgress_resolves net w) as H.
  destruct (syncReadingProgress net w) as [o w']. cbn in *. now rewrite H.
Qed.


(** ** The queue and the cache store over whole runs *)

Lemma on_sync_sublist net event w :
  sublist (pending_sync (snd (on_sync net event w))) (pending_sync w).
Proof.
  destruct (on_sync_cases net event w) as [-> | ->]; reflexivity.
Qed.

Lemma handle_sublist origin net ev w :
  sublist (pending_sync (handle origin net ev w)) (pending_sync w).
Proof.
  destruct ev as [| |event|event|event]; cbn.
  - now rewrite on_install_pending_sync.
  - now rewrite on_activate_purges.
  - now rewrite on_fetch_pending_sync.
  - apply on_sync_sublist.
  - now rewrite on_push_pending_sync.
Qed.

(** X9: the worker only ever removes queued operations. Over any sequence
    of install, activate, fetch, sync and push events, under any network, the
    store 'pending_sync' afterwards is a sublist of the store before: no
    operation is added, none is changed, and those that remain keep their
    order. *)
Theorem queue_only_shrinks origin net evs w :
  sublist (pending_sync (run_events origin net evs w)) (pending_sync w).
Proof.
  revert w. induction evs as [|ev evs IH]; intros w; cbn.
  - reflexivity.
  - etransitivity; [apply IH|apply handle_sublist].
Qed.

(** X10: the drain touches nothing but the queue, the network and the
    console. For every sync event, tag and network, the cache store and the
    display requests are the same after the handler as before. *)
Theorem sync_leaves_caches_and_notifications net event w :
  caches (snd (on_sync net event w)) = caches w /\
  display_requests (snd (on_sync net event w)) = display_requests w /\
  skipped_waiting (snd (on_sync net event w)) = skipped_waiting w.
Proof.
  split; [apply on_sync_caches|].
  destruct (on_sync_cases net event w) as [-> | ->]; now split.
Qed.

(** X11: a push event touches nothing but the notifications. Whatever the
    payload, the handler makes no network call, leaves the cache store and
    the queue as they were, and makes at most one display request. *)
Theorem push_touches_only_notifications event w :
  let w' := snd (on_push event w) in
  caches w' = caches w /\
  pending_sync w' = pending_sync w /\
  net_log w' = net_log w /\
  (display_requests w' = display_requests w \/
   exists dr, display_requests w' = display_requests w ++ [dr]).
Proof.
  cbn zeta. unfold on_push.
  destruct (push_data event) as [d|]; [|repeat split; now left].
  destruct (then_ _ _) as [dr|e]; cbn.
  - repeat split. right. now exists dr.
  - repeat split. now left.
Qed.

(** ** After activation *)

(** X12: after activation nothing of an older generation is served. Any
    response [caches.match] finds in the store the activate handler leaves
    was stored, under the same URL, in a cache of the current generation's
    name before the activation. *)
Theorem only_current_generation_is_served_after_activation w u r :
  storage_match u (caches (snd (on_activate w))) = Some r ->
  exists c, (CACHE_NAME, c) ∈ caches w /\ c !! u = Some r.
Proof.
  rewrite on_activate_purges. cbn. intros H.
  apply storage_match_Some in H as ([n c] & Hin & Hc). cbn in Hc.
  pose proof (purge_keeps_only_current (caches w)) as Hall.
  rewrite Forall_forall in Hall. pose proof (Hall _ Hin) as Hn. cbn in Hn.
  subst n. apply elem_of_purge in Hin as [Hin _]. now exists c.
Qed.

Lemma only_current_generation_is_served_after_activation_witness :
  exists c, (CACHE_NAME, c) ∈ caches two_generations_world /\
            c !! (site +:+ "/reader.html") = Some (page "reader v3").
Proof.
  apply (only_current_generation_is_served_after_activation
           two_generations_world (site +:+ "/reader.html") (page "reader v3")).
  vm_compute. reflexivity.
Defined.

(** ** After installation *)

Lemma fetch_all_succeeds origin net manifest : forall w,
  (forall k u, manifest !! k = Some u ->
               fetch_failed (net (length (net_log w) + k)%nat
                                 (get_request (absolute origin u))) = false) ->
  exists entries w2, fetch_all origin net manifest w = (Resolved entries, w2).
Proof.
  induction manifest as [|u0 rest IH]; intros w Hall.
  - cbn. unfold ret. eauto.
  - cbn [fetch_all]. unfold bind at 1. unfold fetch at 1.
    pose proof (Hall 0%nat u0 eq_refl) as H0. rewrite Nat.add_0_r in H0.
    destruct (net (length (net_log w)) _) as [r|e]; cbn in H0; [|discriminate].
    apply negb_false_iff in H0. rewrite H0.
    set (w1 := with_net_log (net_log w ++ [get_request (absolute origin u0)]) w).
    destruct (IH w1) as (entries & w2 & Hrest).
    { intros k u Hk. subst w1. cbn [net_log with_net_log].
      rewrite length_app. cbn [length].
      replace (length (net_log w) + 1 + k)%nat
        with (length (net_log w) + S k)%nat by lia.
      now apply (Hall (S k)). }
    unfold bind. rewrite Hrest. unfold ret. eauto.
Qed.

Lemma entry_put_same name k u r (st : CacheStorage) :
  is_Some (storage_lookup name st) ->
  entry name k (storage_put name u r st) =
  if decide (u = k) then Some r else entry name k st.
Proof.
  intros [c Hc]. unfold entry. rewrite storage_lookup_put, String.eqb_refl, Hc.
  destruct (decide (u = k)) as [->|Hne].
  - apply lookup_insert_eq.
  - now apply lookup_insert_ne.
Qed.

Lemma storage_lookup_put_is_Some name u r (st : CacheStorage) :
  is_Some (storage_lookup name st) ->
  is_Some (storage_lookup name (storage_put name u r st)).
Proof.
  intros [c Hc]. rewrite storage_lookup_put, String.eqb_refl, Hc. eauto.
Qed.

Lemma put_all_entries name entries : forall w,
  is_Some (storage_lookup name (caches w)) ->
  exists w3,
    put_all name entries w = (Resolved tt, w3) /\
    w3 = with_caches (caches w3) w /\
    is_Some (storage_lookup name (caches w3)) /\
    forall k, (k ∈ map fst entries \/ is_Some (entry name k (caches w))) ->
              is_Some (entry name k (caches w3)).
Proof.
  induction entries as [|[u r] entries IH]; intros w Hopen.
  - exists w. cbn. unfold ret. repeat split; [now destruct w|exact Hopen|].
    intros k [Hk|Hk]; [now apply elem_of_nil in Hk|exact Hk].
  - cbn [put_all]. unfold bind, cache_put, modify.
    set (w1 := with_caches (storage_put name u r (caches w)) w).
    destruct (IH w1) as (w3 & Hput & Hframe & Hopen3 & Hentries).
    { subst w1. cbn. now apply storage_lookup_put_is_Some. }
    exists w3. rewrite Hput. repeat split; [|exact Hopen3|].
    + rewrite Hframe. reflexivity.
    + intros k Hk. apply Hentries. subst w1. cbn [caches with_caches].
      rewrite entry_put_same by exact Hopen.
      destruct (decide (u = k)) as [->|Hne]; [right; eauto|].
      destruct Hk as [Hk|Hk]; [|now right].
      cbn in Hk. apply elem_of_cons in Hk as [Hk|Hk]; [congruence|now left].
Qed.

Lemma entry_storage_match name u (st : CacheStorage) :
  is_Some (entry name u st) -> is_Some (storage_match u st).
Proof.
  unfold entry. induction st as [|[n0 c0] st IH]; cbn.
  - intros [r Hr]. discriminate.
  - destruct (c0 !! u) as [r0|] eqn:Hu; [eauto|].
    destruct (String.eqb n0 name); [|exact IH].
    rewrite Hu. intros [r Hr]. discriminate.
Qed.

(** X13: a successful installation makes the manifest available offline.
    For a worker served over http(s), when every resource of the manifest is
    fetched with an ok status, the install step succeeds and skipWaiting is
    called; from then on every GET request for a URL of the manifest is
    answered from the cache store, whatever the network does and without a
    network call. *)
Theorem installed_manifest_is_served_offline origin net manifest w :
  String.prefix "http" origin = true ->
  (forall k u, manifest !! k = Some u ->
               fetch_failed (net (length (net_log w) + k)%nat
                                 (get_request (absolute origin u))) = false) ->
  let w' := snd (install_with origin net manifest w) in
  fst (install_with origin net manifest w) = Settled (Resolved tt) /\
  skipped_waiting w' = true /\
  forall u net' event,
    u ∈ manifest ->
    method (request event) = "GET" ->
    url (request event) = absolute origin u ->
    exists r, on_fetch origin net' event w' = (Settled (Resolved (Some r)), w').
Proof.
  intros Horigin Hall. cbn zeta. rewrite install_with_cases.
  set (w1 := with_caches (storage_open CACHE_NAME (caches w)) w).
  destruct (fetch_all_succeeds origin net manifest w1 Hall) as (entries & w2 & Hf).
  pose proof (fetch_all_frame origin net manifest w1) as Hframe.
  rewrite Hf in *. cbn [snd] in Hframe.
  apply fetch_all_keys in Hf.
  destruct (put_all_entries CACHE_NAME entries w2) as (w3 & Hput & _ & _ & Hentries).
  { rewrite Hframe. subst w1. cbn. rewrite storage_lookup_open.
    destruct (storage_lookup CACHE_NAME (caches w)); [eauto|].
    rewrite String.eqb_refl. eauto. }
  rewrite Hput. cbn [fst snd]. split; [reflexivity|]. split; [reflexivity|].
  intros u net' event Hu Hm Hurl.
  assert (is_Some (storage_match (url (request event)) (caches w3))) as [r Hr].
  { apply (entry_storage_match CACHE_NAME). apply Hentries. left.
    rewrite Hf, Hurl. apply list_elem_of_fmap. now exists u. }
  exists r. apply on_fetch_hit; [exact Hm| |exact Hr].
  rewrite Hurl. apply prefix_http_not_extension. now apply prefix_app.
Qed.

Lemma installed_manifest_is_served_offline_witness :
  let w' := snd (install_with site always_online urlsToCache empty_world) in
  fst (install_with site always_online urlsToCache empty_world)
  = Settled (Resolved tt) /\
  skipped_waiting w' = true /\
  forall u net' event,
    u ∈ urlsToCache ->
    method (request event) = "GET" ->
    url (request event) = absolute site u ->
    exists r, on_fetch site net' event w' = (Settled (Resolved (Some r)), w').
Proof.
  apply (installed_manifest_is_served_offline
           site always_online urlsToCache empty_world).
  - reflexivity.
  - intros k u _. reflexivity.
Defined.

(** ** Clicks on notifications *)

Lemma first_root_client_none (clientList : list Client) :
  Forall (fun c => client_url c <> "/") clientList ->
  first_root_client clientList = None.
Proof.
  induction 1 as [|c rest Hc _ IH]; cbn; [reflexivity|].
  apply eqb_false_neq in Hc. now rewrite Hc.
Qed.

Lemma first_root_client_found (pre post : list Client) c :
  Forall (fun c' => client_url c' <> "/" \/ has_focus c' = false) pre ->
  client_url c = "/" -> has_focus c = true ->
  first_root_client (pre ++ c :: post) = Some c.
Proof.
  intros Hpre Hurl Hfocus. induction Hpre as [|c' pre Hc' _ IH]; cbn.
  - now rewrite Hurl, Hfocus.
  - destruct Hc' as [Hne|Hnf].
    + apply eqb_false_neq in Hne. now rewrite Hne.
    + rewrite Hnf, andb_false_r. exact IH.
Qed.

(** X14: a click on the body of a notification opens a new window unless a
    client's url is literally '/'. When no open window has the url '/' (the
    platform reports absolute URLs, so none has) and openWindow exists, the
    handler closes the notification, focuses nothing and opens one window at
    '/'. *)
Theorem body_click_opens_root_window event d :
  action event = EmptyString ->
  Forall (fun c => client_url c <> "/") (windows d) ->
  can_open d = true ->
  on_notificationclick event d =
  (Settled (Resolved tt),
   mkDesktop (windows d) true (S (closed d)) (focused d) (opened d ++ [Plain "/"])).
Proof.
  intros Ha Hw Hopen. unfold on_notificationclick. rewrite Ha. cbn.
  rewrite (first_root_client_none _ Hw). unfold openWindow. cbn.
  now rewrite Hopen.
Qed.

Lemma body_click_opens_root_window_witness :
  on_notificationclick (mkClick EmptyString JNull) open_site_desktop =
  (Settled (Resolved tt),
   mkDesktop (windows open_site_desktop) true (S (closed open_site_desktop))
             (focused open_site_desktop)
             (opened open_site_desktop ++ [Plain "/"])).
Proof.
  apply (body_click_opens_root_window (mkClick EmptyString JNull) open_site_desktop).
  - reflexivity.
  - repeat constructor; cbn; discriminate.
  - reflexivity.
Defined.

(** A click on the body focuses the first window at '/'. When the
    client list holds a client whose url is '/' and that can be focused, the
    first such client is focused, and no window is opened. *)
Theorem body_click_focuses_first_root_client event d pre c post :
  action event = EmptyString ->
  windows d = pre ++ c :: post ->
  Forall (fun c' => client_url c' <> "/" \/ has_focus c' = false) pre ->
  client_url c = "/" -> has_focus c = true ->
  on_notificationclick event d =
  (Settled (Resolved tt),
   mkDesktop (windows d) (can_open d) (S (closed d)) (focused d ++ [c]) (opened d)).
Proof.
  intros Ha Hw Hpre Hurl Hfocus. unfold on_notificationclick. rewrite Ha. cbn.
  assert (first_root_client (windows d) = Some c) as ->.
  { rewrite Hw. now apply first_root_client_found. }
  reflexivity.
Qed.

Lemma body_click_focuses_first_root_client_witness :
  let d := mkDesktop [mkClient "/reader.html" true; mkClient "/" false;
                      mkClient "/" true; mkClient "/" true] true 0 [] [] in
  on_notificationclick (mkClick EmptyString JNull) d =
  (Settled (Resolved tt),
   mkDesktop (windows d) (can_open d) (S (closed d))
             (focused d ++ [mkClient "/" true]) (opened d)).
Proof.
  apply (body_click_focuses_first_root_client
           (mkClick EmptyString JNull)
           (mkDesktop [mkClient "/reader.html" true; mkClient "/" false;
                       mkClient "/" true; mkClient "/" true] true 0 [] [])
           [mkClient "/reader.html" true; mkClient "/" false]
           (mkClient "/" true) [mkClient "/" true]).
  - reflexivity.
  - reflexivity.
  - constructor; [left; cbn; discriminate|].
    constructor; [now right|constructor].
  - reflexivity.
  - reflexivity.
Defined.

(** X15: an action button the handler does not know is ignored. For an
    action that is neither empty, 'open_book' nor 'view_notifications', the
    handler closes the notification and does nothing else: no window is
    focused or opened and no error is raised, whatever the data. *)
Theorem unknown_action_is_ignored event d :
  action event <> EmptyString ->
  action event <> "open_book" ->
  action event <> "view_notifications" ->
  on_notificationclick event d =
  (Returned,
   mkDesktop (windows d) (can_open d) (S (closed d)) (focused d) (opened d)).
Proof.
  intros H0 H1 H2. unfold on_notificationclick, handleNotificationAction.
  apply eqb_false_neq in H0, H1, H2. rewrite H0, H1, H2. reflexivity.
Qed.

Lemma unknown_action_is_ignored_witness :
  on_notificationclick (mkClick "dismiss" JNull) open_site_desktop =
  (Returned,
   mkDesktop (windows open_site_desktop) (can_open open_site_desktop)
             (S (closed open_site_desktop)) (focused open_site_desktop)
             (opened open_site_desktop)).
Proof.
  apply (unknown_action_is_ignored (mkClick "dismiss" JNull) open_site_desktop);
    cbn; discriminate.
Defined.

(** X16: the book of a pushed notification never reaches the reader URL.
    For a notification the push handler displayed, whatever its payload, a
    click on the action 'open_book' opens '/reader.html?book=' followed by
    the string form of undefined: the data the handler attached holds the
    payload's id under 'primaryKey' and has no 'bookId'. *)
Theorem open_book_on_pushed_notification now payload dr d :
  build_notification now payload = Resolved dr ->
  can_open d = true ->
  on_notificationclick (mkClick "open_book" (data_object (opt_data (options dr)))) d
  = (Returned,
     mkDesktop (windows d) true (S (closed d)) (focused d)
               (opened d ++ [Interpolated "/reader.html?book=" None])).
Proof.
  intros _ Hopen. unfold on_notificationclick, handleNotificationAction. cbn.
  unfold data_object. destruct (primaryKey _); cbn; unfold openWindow; cbn;
    now rewrite Hopen.
Qed.

Lemma open_book_on_pushed_notification_witness :
  on_notificationclick
    (mkClick "open_book" (data_object (opt_data (options pushed_chapter))))
    empty_desktop
  = (Returned,
     mkDesktop (windows empty_desktop) true (S (closed empty_desktop))
               (focused empty_desktop)
               (opened empty_desktop ++ [Interpolated "/reader.html?book=" None])).
Proof.
  apply (open_book_on_pushed_notification 1000 chapter_payload pushed_chapter
                                          empty_desktop);
    reflexivity.
Defined.

(** X17: every click closes the notification exactly once and causes at
    most one call of focus or openWindow; the list of windows is not
    changed. *)
Theorem click_closes_once_and_acts_at_most_once event d :
  let d' := snd (on_notificationclick event d) in
  closed d' = S (closed d) /\
  windows d' = windows d /\
  (length (focused d') + length (opened d')
   <= length (focused d) + length (opened d) + 1)%nat.
Proof.
  cbn zeta. unfold on_notificationclick.
  destruct (negb (String.eqb (action event) EmptyString)).
  - unfold handleNotificationAction.
    destruct (String.eqb (action event) "open_book").
    + destruct (get_property "bookId" (notification_data event)) as [b|e];
        [|cbn; repeat split; lia].
      unfold openWindow. cbn. destruct (can_open d); cbn;
        rewrite ?length_app; cbn; repeat split; lia.
    + destruct (String.eqb (action event) "view_notifications");
        [|cbn; repeat split; lia].
      unfold openWindow. cbn. destruct (can_open d); cbn;
        rewrite ?length_app; cbn; repeat split; lia.
  - cbn [windows close_notification].
    destruct (first_root_client (windows d)) as [c|].
    + cbn. rewrite length_app. cbn. repeat split; lia.
    + unfold openWindow. cbn. destruct (can_open d); cbn;
        rewrite ?length_app; cbn; repeat split; lia.
Qed.

(** ** The upgrade of the database *)

Lemma create_if_missing_lookup name key (db : Database) n :
  create_if_missing name key db !! n =
  match db !! n with
  | Some s => Some s
  | None => if decide (name = n) then Some (mkObjectStore key []) else None
  end.
Proof.
  unfold create_if_missing. destruct (db !! name) as [s|] eqn:Hname.
  - destruct (db !! n) eqn:Hn; [reflexivity|].
    destruct (decide (name = n)) as [->|]; congruence.
  - destruct (decide (name = n)) as [->|Hne].
    + now rewrite lookup_insert_eq, Hname.
    + rewrite lookup_insert_ne by assumption. now destruct (db !! n).
Qed.

(** X18: upgrading the database creates what is missing and keeps what is
    there. After the upgrade callback both 'pending_sync' and
    'offline_books' exist; a store that existed before is the same store,
    with its key path and records; only those two names can be new; and
    running the callback once more changes nothing. *)
Theorem upgrade_creates_missing_stores_only (db : Database) :
  is_Some (onupgradeneeded db !! "pending_sync") /\
  is_Some (onupgradeneeded db !! "offline_books") /\
  (forall n,
      onupgradeneeded db !! n =
      match db !! n with
      | Some s => Some s
      | None =>
          if decide (n = "pending_sync" \/ n = "offline_books")
          then Some (mkObjectStore "id" [])
          else None
      end) /\
  onupgradeneeded (onupgradeneeded db) = onupgradeneeded db.
Proof.
  assert (forall d n,
             onupgradeneeded d !! n =
             match d !! n with
             | Some s => Some s
             | None =>
                 if decide (n = "pending_sync" \/ n = "offline_books")
                 then Some (mkObjectStore "id" [])
                 else None
             end) as Hlookup.
  { intros d n. unfold onupgradeneeded. rewrite !create_if_missing_lookup.
    destruct (d !! n); [reflexivity|].
    destruct (decide ("pending_sync" = n)) as [<-|H1].
    - now rewrite decide_True by now left.
    - destruct (decide ("offline_books" = n)) as [<-|H2].
      + now rewrite decide_True by now right.
      + rewrite decide_False; [reflexivity|]. intros [->| ->]; congruence. }
  split; [|split; [|split]].
  - rewrite Hlookup. destruct (db !! "pending_sync"); [eauto|].
    rewrite decide_True by now left. eauto.
  - rewrite Hlookup. destruct (db !! "offline_books"); [eauto|].
    rewrite decide_True by now right. eauto.
  - exact (Hlookup db).
  - apply map_eq. intros n. rewrite Hlookup.
    destruct (onupgradeneeded db !! n) eqn:Hn; [reflexivity|].
    rewrite Hlookup in Hn. destruct (db !! n); [discriminate|].
    destruct (decide _); [discriminate|reflexivity].
Qed.

(** * The page: UserManager *)

Ltac script :=
  unfold rescue, and_then, yield, raise, lift, getItem, setItem_json,
    navigator_onLine, page_console_error.

Section UserManagerFacts.

Variable apiUrl : string.
Variable net : Network.
Variable parse : string -> outcome Json.

Lemma getCurrentUser_stored pg j :
  localStorage pg !! storageKey = Some (JsonOf j) ->
  getCurrentUser apiUrl net parse pg = (Resolved j, pg).
Proof.
  intros H. unfold getCurrentUser. script. now rewrite H.
Qed.

Lemma getCurrentUser_cases pg :
  exists user pg',
    getCurrentUser apiUrl net parse pg = (Resolved user, pg') /\
    onLine pg' = onLine pg /\
    (localStorage pg' = localStorage pg \/
     (localStorage pg' = <[storageKey := JsonOf user]> (localStorage pg)))
    /\ (length (calls pg') <= S (length (calls pg)))%nat.
Proof.
  unfold getCurrentUser, saveUser, page_fetch, response_json. script.
  destruct (localStorage pg !! storageKey) as [[j|text]|]; cbn;
    [|destruct (String.eqb text EmptyString); cbn|];
    try (destruct (onLine pg) eqn:Hon;
         [destruct (net _ _) as [r|e]; cbn;
          [destruct (ok r); cbn;
           [destruct (resp_body r) as [s|j'];
            [destruct (parse s) as [j'|e]|]; cbn|]|]|]);
    (eexists _, _; split; [reflexivity|]; cbn; split; [assumption || reflexivity|];
     split; [first [left; reflexivity|right; reflexivity]
            |rewrite ?length_app; cbn; lia]).
Qed.

End UserManagerFacts.

(** X19: what saveUser stores, getCurrentUser returns. After saveUser(user),
    getCurrentUser resolves with that user and leaves the page as it is: it
    makes no network call, online or not, whatever was stored before. *)
Theorem saved_user_is_current_user apiUrl net parse user pg :
  let pg1 := snd (saveUser user pg) in
  getCurrentUser apiUrl net parse pg1 = (Resolved user, pg1).
Proof.
  cbn zeta. apply getCurrentUser_stored. cbn. apply lookup_insert_eq.
Qed.

(** X20: getCurrentUser never rejects. Whatever localStorage holds and
    whatever the network does, it resolves, with a user or null, after at
    most one network call; text that does not parse, an unreachable server
    or an answer that is not ok all end in null. With nothing stored and the
    browser offline it resolves with null without any call. *)
Theorem getCurrentUser_never_rejects apiUrl net parse pg :
  (exists user,
      fst (getCurrentUser apiUrl net parse pg) = Resolved user /\
      (length (calls (snd (getCurrentUser apiUrl net parse pg)))
       <= S (length (calls pg)))%nat) /\
  (forall e, localStorage pg !! storageKey = None ->
             net (length (calls pg))
                 (mkRequest "GET" (apiUrl +:+ "/user") [] None) = Rejected e ->
             fst (getCurrentUser apiUrl net parse pg) = Resolved JNull) /\
  (localStorage pg !! storageKey = None -> onLine pg = false ->
   getCurrentUser apiUrl net parse pg = (Resolved JNull, pg)).
Proof.
  split; [|split].
  - destruct (getCurrentUser_cases apiUrl net parse pg)
      as (user & pg' & -> & _ & _ & Hcalls).
    exists user. now split.
  - intros e Hs Hnet. unfold getCurrentUser, page_fetch. script.
    rewrite Hs. destruct (onLine pg); [|reflexivity]. now rewrite Hnet.
  - intros Hs Hoff. unfold getCurrentUser. script. now rewrite Hs, Hoff.
Qed.

(** ** Objects and their fields *)

Lemma field_set_field k k' v fs :
  field k (set_field k' v fs) = if String.eqb k' k then Some v else field k fs.
Proof.
  induction fs as [|[k0 v0] fs IH]; cbn.
  - reflexivity.
  - destruct (String.eqb_spec k0 k') as [->|Hne]; cbn.
    + now destruct (String.eqb k' k).
    + rewrite IH. destruct (String.eqb_spec k0 k) as [->|]; [|reflexivity].
      apply eqb_false_neq in Hne. rewrite String.eqb_sym in Hne.
      now rewrite Hne.
Qed.

Lemma field_app k (a b : list (string * Json)) :
  field k (a ++ b) = match field k a with Some v => Some v | None => field k b end.
Proof.
  induction a as [|[k0 v0] a IH]; cbn; [reflexivity|].
  now destruct (String.eqb k0 k).
Qed.

(** After [assign], a key holds the last value the source gives it, or,
    when the source does not mention it, the value it had. *)
Lemma field_assign k src : forall fs,
  field k (assign fs src) =
  match field k (rev src) with Some v => Some v | None => field k fs end.
Proof.
  induction src as [|[k1 v1] src IH]; intros fs; cbn.
  - reflexivity.
  - fold (assign (set_field k1 v1 fs) src). rewrite IH, field_app. cbn.
    rewrite field_set_field.
    destruct (field k (rev src)); [reflexivity|].
    now destruct (String.eqb k1 k).
Qed.

(** ** updateUser *)

Section UpdateUserFacts.

Variable apiUrl : string.
Variable net : Network.
Variable parse : string -> outcome Json.

(** With a user in localStorage, updateUser stores the merged user before
    anything else can fail. *)
Lemma updateUser_stores_first pg j updates :
  localStorage pg !! storageKey = Some (JsonOf j) ->
  let '(o, pg') := updateUser apiUrl net parse updates pg in
  localStorage pg' = <[storageKey := JsonOf (spread j updates)]> (localStorage pg) /\
  onLine pg' = onLine pg /\
  (o = Resolved (spread j updates) \/ exists e, o = Rejected e).
Proof.
  intros Hs. unfold updateUser. unfold rescue at 1. unfold and_then at 1.
  rewrite (getCurrentUser_stored apiUrl net parse pg j Hs).
  unfold saveUser, page_fetch. script. cbn.
  destruct (onLine pg) eqn:Hon; cbn.
  - destruct (get_property "role" j) as [role|e]; cbn.
    + destruct (is_not_string "guest" role); cbn.
      * destruct (net _ _) as [r|e]; cbn; repeat split; eauto.
      * repeat split; eauto.
    + repeat split; eauto.
  - repeat split; eauto.
Qed.

Lemma updateUser_quiet pg j updates :
  localStorage pg !! storageKey = Some (JsonOf j) ->
  onLine pg = false \/ get_property "role" j = Resolved (Some (JStr "guest")) ->
  updateUser apiUrl net parse updates pg =
  (Resolved (spread j updates),
   mkPage (<[storageKey := JsonOf (spread j updates)]> (localStorage pg))
          (onLine pg) (calls pg) (page_console pg)).
Proof.
  intros Hs Hquiet. unfold updateUser. unfold rescue at 1. unfold and_then at 1.
  rewrite (getCurrentUser_stored apiUrl net parse pg j Hs).
  unfold saveUser, page_fetch. script. cbn.
  destruct (onLine pg) eqn:Hon; cbn; [|reflexivity].
  destruct Hquiet as [Hoff|Hguest]; [discriminate|].
  rewrite Hguest. reflexivity.
Qed.

End UpdateUserFacts.

(** X21: updateUser merges the update into the stored user. For a stored
    user object and an update object, when the browser is offline or the
    user is a guest, updateUser resolves with the merged object and stores
    it: every key of the update holds the update's value, every other key
    keeps the stored one; no network call is made and nothing is logged. *)
Theorem updateUser_merges_update apiUrl net parse fields ups pg :
  localStorage pg !! storageKey = Some (JsonOf (JObj fields)) ->
  onLine pg = false \/ field "role" fields = Some (JStr "guest") ->
  exists merged,
    updateUser apiUrl net parse (JObj ups) pg =
    (Resolved (JObj merged),
     mkPage (<[storageKey := JsonOf (JObj merged)]> (localStorage pg))
            (onLine pg) (calls pg) (page_console pg)) /\
    forall k,
      field k merged =
      match field k (rev ups) with Some v => Some v | None => field k fields end.
Proof.
  intros Hs Hquiet. exists (assign fields ups). split.
  - apply (updateUser_quiet apiUrl net parse pg (JObj fields) (JObj ups) Hs).
    destruct Hquiet as [Hoff|Hguest]; [now left|right]. cbn. now rewrite Hguest.
  - intros k. apply field_assign.
Qed.

Lemma updateUser_merges_update_witness :
  exists merged,
    updateUser api always_offline no_parse
               (JObj [("theme", JStr "dark"); ("id", JStr "guest_2")]) guest_page =
    (Resolved (JObj merged),
     mkPage (<[storageKey := JsonOf (JObj merged)]> (localStorage guest_page))
            (onLine guest_page) (calls guest_page) (page_console guest_page)) /\
    forall k,
      field k merged =
      match field k (rev [("theme", JStr "dark"); ("id", JStr "guest_2")]) with
      | Some v => Some v
      | None => field k guest_fields
      end.
Proof.
  apply (updateUser_merges_update api always_offline no_parse guest_fields
           [("theme", JStr "dark"); ("id", JStr "guest_2")] guest_page).
  - reflexivity.
  - now left.
Defined.

(** X22: updateUser stores before it sends. For a stored user who is not a
    guest, online, when the PUT to the server does not get through,
    updateUser rejects with the network's error and logs it; the merged user
    is in localStorage all the same, and is what getCurrentUser returns from
    then on. *)
Theorem failed_put_leaves_update_stored apiUrl net parse j role updates e pg :
  localStorage pg !! storageKey = Some (JsonOf j) ->
  onLine pg = true ->
  get_property "role" j = Resolved role ->
  is_not_string "guest" role = true ->
  net (length (calls pg)) (json_request "PUT" (apiUrl +:+ "/user") updates)
  = Rejected e ->
  let pg' := snd (updateUser apiUrl net parse updates pg) in
  fst (updateUser apiUrl net parse updates pg) = Rejected e /\
  page_console pg' = page_console pg ++ [e] /\
  forall net' parse',
    getCurrentUser apiUrl net' parse' pg' = (Resolved (spread j updates), pg').
Proof.
  intros Hs Hon Hrole Hguest Hnet. cbn zeta.
  assert (updateUser apiUrl net parse updates pg =
          (Rejected e,
           mkPage (<[storageKey := JsonOf (spread j updates)]> (localStorage pg))
                  true
                  (calls pg ++ [mkPageCall
                                  (json_request "PUT" (apiUrl +:+ "/user") updates)
                                  "include"])
                  (page_console pg ++ [e]))) as ->.
  { unfold updateUser. unfold rescue at 1. unfold and_then at 1.
    rewrite (getCurrentUser_stored apiUrl net parse pg j Hs).
    unfold saveUser, page_fetch. script. cbn.
    rewrite Hon, Hrole. cbn. rewrite Hguest. cbn. rewrite Hnet. reflexivity. }
  cbn. repeat split. intros net' parse'. apply getCurrentUser_stored. cbn.
  apply lookup_insert_eq.
Qed.

Lemma failed_put_leaves_update_stored_witness :
  let updates := JObj [("theme", JStr "dark")] in
  let pg' := snd (updateUser api always_offline no_parse updates member_page) in
  fst (updateUser api always_offline no_parse updates member_page)
  = Rejected TypeError /\
  page_console pg' = page_console member_page ++ [TypeError] /\
  forall net' parse',
    getCurrentUser api net' parse' pg'
    = (Resolved (spread (JObj [("id", JStr "u7"); ("role", JStr "member")]) updates),
       pg').
Proof.
  apply (failed_put_leaves_update_stored
           api always_offline no_parse
           (JObj [("id", JStr "u7"); ("role", JStr "member")])
           (Some (JStr "member")) (JObj [("theme", JStr "dark")]) TypeError
           member_page); reflexivity.
Defined.

(** X23: without a current user, updateUser fails online after it has
    stored the update. With nothing in localStorage, the browser online and
    the server not delivering a user (the call rejects or the answer is not
    ok), getCurrentUser yields null; updateUser stores the update alone as
    the user and then rejects with a TypeError, for reading the role of
    null. *)
Theorem updateUser_without_user_online apiUrl net parse updates pg :
  localStorage pg !! storageKey = None ->
  onLine pg = true ->
  fetch_failed (net (length (calls pg))
                    (mkRequest "GET" (apiUrl +:+ "/user") [] None)) = true ->
  let pg' := snd (updateUser apiUrl net parse updates pg) in
  fst (updateUser apiUrl net parse updates pg) = Rejected TypeError /\
  localStorage pg' !! storageKey = Some (JsonOf (spread JNull updates)) /\
  length (calls pg') = S (length (calls pg)).
Proof.
  intros Hs Hon Hfail. cbn zeta.
  assert (exists pg1,
             getCurrentUser apiUrl net parse pg = (Resolved JNull, pg1) /\
             localStorage pg1 = localStorage pg /\ onLine pg1 = true /\
             length (calls pg1) = S (length (calls pg))) as (pg1 & Hget & Hl & Ho & Hc).
  { unfold getCurrentUser, page_fetch. script. rewrite Hs, Hon.
    destruct (net _ _) as [r|e]; cbn in *.
    - apply negb_true_iff in Hfail. rewrite Hfail. cbn.
      eexists. split; [reflexivity|]. cbn. rewrite length_app. cbn.
      repeat split; try assumption; lia.
    - eexists. split; [reflexivity|]. cbn. rewrite length_app. cbn.
      repeat split; try assumption; lia. }
  assert (updateUser apiUrl net parse updates pg =
          (Rejected TypeError,
           mkPage (<[storageKey := JsonOf (spread JNull updates)]> (localStorage pg1))
                  (onLine pg1) (calls pg1) (page_console pg1 ++ [TypeError]))) as ->.
  { unfold updateUser. unfold rescue at 1. unfold and_then at 1. rewrite Hget.
    unfold saveUser. script. cbn. rewrite Ho. reflexivity. }
  cbn. rewrite lookup_insert_eq. repeat split. exact Hc.
Qed.

Lemma updateUser_without_user_online_witness :
  let updates := JObj [("theme", JStr "dark")] in
  let pg' := snd (updateUser api always_offline no_parse updates fresh_page) in
  fst (updateUser api always_offline no_parse updates fresh_page)
  = Rejected TypeError /\
  localStorage pg' !! storageKey = Some (JsonOf (spread JNull updates)) /\
  length (calls pg') = S (length (calls fresh_page)).
Proof.
  apply (updateUser_without_user_online
           api always_offline no_parse (JObj [("theme", JStr "dark")]) fresh_page);
    reflexivity.
Defined.

(** ** Favorites *)

Lemma or_empty_array_array x items :
  or_empty_array x = JArr items -> items <> [] -> x = Some (JArr items).
Proof.
  unfold or_empty_array. destruct x as [v|]; [|intros [= <-]; congruence].
  destruct (truthy v); [now intros ->|intros [= <-]; congruence].
Qed.

Lemma existsb_filter_out bookId (items : list Json) :
  existsb (is_book bookId)
          (List.filter (fun x => is_not_string bookId (Some x)) items) = false.
Proof.
  induction items as [|x items IH]; [reflexivity|]. cbn [List.filter].
  destruct (is_not_string bookId (Some x)) eqn:Hx; [|exact IH].
  cbn [existsb]. unfold is_book at 1. rewrite Hx. exact IH.
Qed.

Section FavoritesFacts.

Variable apiUrl : string.
Variable net : Network.
Variable parse : string -> outcome Json.
Variable bookId : string.
Variable fields : list (string * Json).
Variable items : list Json.
Variable pg : Page.

Hypothesis stored : localStorage pg !! storageKey = Some (JsonOf (JObj fields)).
Hypothesis favorites : or_empty_array (field "favorites" fields) = JArr items.

Lemma isBookFavorite_stored :
  isBookFavorite apiUrl net parse bookId pg
  = (Resolved (existsb (is_book bookId) items), pg).
Proof.
  unfold isBookFavorite. unfold rescue, and_then.
  rewrite (getCurrentUser_stored apiUrl net parse pg _ stored).
  cbn [optional_get]. rewrite favorites. reflexivity.
Qed.

Lemma addToFavorites_present :
  existsb (is_book bookId) items = true ->
  addToFavorites apiUrl net parse bookId pg = (Resolved tt, pg).
Proof.
  intros Hin. unfold addToFavorites. unfold rescue, and_then at 1.
  rewrite (getCurrentUser_stored apiUrl net parse pg _ stored).
  cbn [optional_get]. rewrite favorites. unfold and_then at 1.
  cbn [js_includes lift]. rewrite Hin. reflexivity.
Qed.

Lemma addToFavorites_absent :
  existsb (is_book bookId) items = false ->
  let pg' := snd (addToFavorites apiUrl net parse bookId pg) in
  localStorage pg' =
  <[storageKey :=
      JsonOf (JObj (set_field "favorites" (JArr (items ++ [JStr bookId])) fields))]>
    (localStorage pg).
Proof.
  intros Hout. cbn zeta.
  pose proof (updateUser_stores_first apiUrl net parse pg (JObj fields)
                (JObj [("favorites", JArr (items ++ [JStr bookId]))]) stored) as Hup.
  unfold addToFavorites. unfold rescue, and_then at 1.
  rewrite (getCurrentUser_stored apiUrl net parse pg _ stored).
  cbn [optional_get]. rewrite favorites. unfold and_then at 1.
  cbn [js_includes lift]. rewrite Hout. cbn [negb].
  unfold and_then at 1. cbn [js_append lift]. unfold and_then at 1.
  destruct (updateUser _ _ _ _ _) as [[u|e] pg1]; destruct Hup as (Hl & _ & _);
    cbn; exact Hl.
Qed.

Lemma removeFromFavorites_storage :
  let pg' := snd (removeFromFavorites apiUrl net parse bookId pg) in
  localStorage pg' =
  <[storageKey :=
      JsonOf (JObj (set_field "favorites"
                      (JArr (List.filter (fun x => is_not_string bookId (Some x)) items))
                      fields))]>
    (localStorage pg).
Proof.
  cbn zeta.
  pose proof (updateUser_stores_first apiUrl net parse pg (JObj fields)
                (JObj [("favorites",
                        JArr (List.filter (fun x => is_not_string bookId (Some x))
                                          items))]) stored) as Hup.
  unfold removeFromFavorites. unfold rescue, and_then at 1.
  rewrite (getCurrentUser_stored apiUrl net parse pg _ stored).
  cbn [optional_get]. rewrite favorites. unfold and_then at 1.
  cbn [js_without lift]. unfold and_then at 1.
  destruct (updateUser _ _ _ _ _) as [[u|e] pg1]; destruct Hup as (Hl & _ & _);
    cbn; exact Hl.
Qed.

End FavoritesFacts.

Lemma favorites_after_set name v fields :
  or_empty_array (field name (set_field name (JArr v) fields)) = JArr v.
Proof. now rewrite field_set_field, String.eqb_refl. Qed.

Lemma is_book_self bookId : is_book bookId (JStr bookId) = true.
Proof. unfold is_book. cbn. now rewrite String.eqb_refl. Qed.

(** What addToFavorites leaves in localStorage: a user object whose
    favorites hold the book and whose other fields are the stored ones. *)
Lemma addToFavorites_stores apiUrl net parse bookId fields items pg :
  localStorage pg !! storageKey = Some (JsonOf (JObj fields)) ->
  or_empty_array (field "favorites" fields) = JArr items ->
  exists fields' items',
    localStorage (snd (addToFavorites apiUrl net parse bookId pg)) !! storageKey
    = Some (JsonOf (JObj fields')) /\
    or_empty_array (field "favorites" fields') = JArr items' /\
    existsb (is_book bookId) items' = true /\
    forall k, k <> "favorites" -> field k fields' = field k fields.
Proof.
  intros Hs Hf. destruct (existsb (is_book bookId) items) eqn:Hin.
  - exists fields, items.
    rewrite (addToFavorites_present apiUrl net parse bookId fields items pg Hs Hf Hin).
    repeat split; assumption.
  - exists (set_field "favorites" (JArr (items ++ [JStr bookId])) fields),
           (items ++ [JStr bookId]).
    rewrite (addToFavorites_absent apiUrl net parse bookId fields items pg Hs Hf Hin).
    rewrite lookup_insert_eq. split; [reflexivity|].
    split; [apply favorites_after_set|]. split.
    + rewrite existsb_app. cbn. rewrite is_book_self. apply orb_true_r.
    + intros k Hk. rewrite field_set_field.
      apply not_eq_sym, eqb_false_neq in Hk. now rewrite Hk.
Qed.

(** X24: a book added to the favorites is a favorite. For a stored user
    object whose favorites are an array (or missing), after
    addToFavorites(bookId) isBookFavorite(bookId) resolves with true, even
    when addToFavorites itself rejected because the server could not be
    reached; the user's other fields are as they were. *)
Theorem added_book_is_favorite apiUrl net parse bookId fields items pg :
  localStorage pg !! storageKey = Some (JsonOf (JObj fields)) ->
  or_empty_array (field "favorites" fields) = JArr items ->
  let pg' := snd (addToFavorites apiUrl net parse bookId pg) in
  (forall net' parse',
      fst (isBookFavorite apiUrl net' parse' bookId pg') = Resolved true) /\
  exists fields',
    localStorage pg' !! storageKey = Some (JsonOf (JObj fields')) /\
    forall k, k <> "favorites" -> field k fields' = field k fields.
Proof.
  intros Hs Hf. cbn zeta.
  destruct (addToFavorites_stores apiUrl net parse bookId fields items pg Hs Hf)
    as (fields' & items' & Hs' & Hf' & Hin & Hother).
  split.
  - intros net' parse'.
    rewrite (isBookFavorite_stored apiUrl net' parse' bookId fields' items' _ Hs' Hf').
    cbn. now rewrite Hin.
  - now exists fields'.
Qed.

Lemma added_book_is_favorite_witness :
  let pg' := snd (addToFavorites api always_offline no_parse "7" member_page) in
  (forall net' parse',
      fst (isBookFavorite api net' parse' "7" pg') = Resolved true) /\
  exists fields',
    localStorage pg' !! storageKey = Some (JsonOf (JObj fields')) /\
    forall k, k <> "favorites" ->
              field k fields' = field k [("id", JStr "u7"); ("role", JStr "member")].
Proof.
  apply (added_book_is_favorite api always_offline no_parse "7"
           [("id", JStr "u7"); ("role", JStr "member")] [] member_page);
    reflexivity.
Defined.

(** X25: a book removed from the favorites is no favorite. For a stored
    user object whose favorites are an array (or missing), after
    removeFromFavorites(bookId) isBookFavorite(bookId) resolves with false,
    however often the book was listed and whether or not the server could be
    reached; the user's other fields are as they were. *)
Theorem removed_book_is_no_favorite apiUrl net parse bookId fields items pg :
  localStorage pg !! storageKey = Some (JsonOf (JObj fields)) ->
  or_empty_array (field "favorites" fields) = JArr items ->
  let pg' := snd (removeFromFavorites apiUrl net parse bookId pg) in
  (forall net' parse',
      fst (isBookFavorite apiUrl net' parse' bookId pg') = Resolved false) /\
  exists fields',
    localStorage pg' !! storageKey = Some (JsonOf (JObj fields')) /\
    forall k, k <> "favorites" -> field k fields' = field k fields.
Proof.
  intros Hs Hf. cbn zeta.
  pose proof (removeFromFavorites_storage apiUrl net parse bookId fields items pg
                Hs Hf) as Hl. cbn zeta in Hl.
  set (kept := List.filter (fun x => is_not_string bookId (Some x)) items) in *.
  set (fields' := set_field "favorites" (JArr kept) fields) in *.
  assert (localStorage (snd (removeFromFavorites apiUrl net parse bookId pg))
          !! storageKey = Some (JsonOf (JObj fields'))) as Hs'.
  { rewrite Hl. apply lookup_insert_eq. }
  split.
  - intros net' parse'.
    rewrite (isBookFavorite_stored apiUrl net' parse' bookId fields' kept _ Hs'
               (favorites_after_set _ _ _)).
    cbn. subst kept. now rewrite existsb_filter_out.
  - exists fields'. split; [exact Hs'|].
    intros k Hk. subst fields'. rewrite field_set_field.
    apply not_eq_sym, eqb_false_neq in Hk. now rewrite Hk.
Qed.

Lemma removed_book_is_no_favorite_witness :
  let pg' := snd (removeFromFavorites api always_offline no_parse "3" guest_page) in
  (forall net' parse',
      fst (isBookFavorite api net' parse' "3" pg') = Resolved false) /\
  exists fields',
    localStorage pg' !! storageKey = Some (JsonOf (JObj fields')) /\
    forall k, k <> "favorites" -> field k fields' = field k guest_fields.
Proof.
  apply (removed_book_is_no_favorite api always_offline no_parse "3"
           guest_fields [JStr "1"; JStr "3"] guest_page);
    reflexivity.
Defined.



(** ** Syncing from the page *)

(** X27: the page's sync calls never reject and stay silent when they
    should. syncReadingProgress and syncUserData of UserManager always
    resolve, whatever the network does and whatever the user is (null
    included); an error is logged only. Offline neither makes a network
    call, and syncUserData makes none for a guest. *)
Theorem page_sync_never_rejects apiUrl net progress user pg :
  fst (user_syncReadingProgress apiUrl net progress pg) = Resolved tt /\
  fst (syncUserData apiUrl net user pg) = Resolved tt /\
  (onLine pg = false ->
   user_syncReadingProgress apiUrl net progress pg = (Resolved tt, pg) /\
   syncUserData apiUrl net user pg = (Resolved tt, pg)) /\
  (get_property "role" user = Resolved (Some (JStr "guest")) ->
   syncUserData apiUrl net user pg = (Resolved tt, pg)).
Proof.
  unfold user_syncReadingProgress, syncUserData, page_fetch. script.
  destruct (onLine pg) eqn:Hon.
  - split; [now destruct (net _ _)|]. split.
    + destruct (get_property "role" user) as [role|e]; [|reflexivity].
      destruct (is_not_string "guest" role); [now destruct (net _ _)|reflexivity].
    + split; [discriminate|]. intros ->. now destruct pg.
  - repeat split; now destruct pg.
Qed.

(** * The page's cache cleanup *)

Lemma cleanup_loop_purges cacheNames w :
  cleanup_loop cacheNames w =
  (Resolved tt, with_caches (purge cacheNames (caches w)) w).
Proof.
  revert w. induction cacheNames as [|n names IH]; intros w; cbn.
  - unfold ret. now destruct w.
  - unfold bind. change (String.eqb n currentCache) with (String.eqb n CACHE_NAME).
    unfold purge_step.
    destruct (negb (String.eqb n CACHE_NAME)); cbn.
    + rewrite IH. reflexivity.
    + unfold ret. rewrite IH. reflexivity.
Qed.

(** X28: the page's cleanup and the worker's activation agree. When the
    page has the caches API, cleanupCache leaves exactly the cache store the
    activate handler leaves: the caches whose name is not 'literaverse-v3'
    are deleted, the others are untouched. It never rejects, changes nothing
    but the cache store, and without the caches API it does nothing. *)
Theorem cleanupCache_agrees_with_activation w :
  cleanupCache true w =
  (Resolved tt, with_caches (caches (snd (on_activate w))) w) /\
  Forall (fun nc : string * Cache => nc.1 = "literaverse-v3")
         (caches (snd (cleanupCache true w))) /\
  (forall u, entry "literaverse-v3" u (caches (snd (cleanupCache true w)))
             = entry "literaverse-v3" u (caches w)) /\
  cleanupCache false w = (Resolved tt, w).
Proof.
  assert (cleanupCache true w =
          (Resolved tt, with_caches (purge (storage_keys (caches w)) (caches w)) w))
    as Hc.
  { unfold cleanupCache, catch, bind, caches_keys, gets.
    now rewrite cleanup_loop_purges. }
  rewrite Hc, on_activate_purges. cbn [fst snd caches with_caches with_clients_claimed].
  split; [reflexivity|]. split; [apply purge_keeps_only_current|]. split.
  - intros u. unfold entry. rewrite storage_lookup_purge. reflexivity.
  - reflexivity.
Qed.

(** * BookManager: cachedFetch *)

(** X29: a value fetched is served for five minutes without fetching. When
    the cache holds no fresh entry for a key at time [now] and the fetch
    function resolves with [data], cachedFetch resolves with [data] and
    records it under the time of the call; a call for that key at a time
    [later] with later - now < 300000 then resolves with [data] and leaves
    the cache as it is, whatever its fetch function would do: the function
    is not consulted. *)
Theorem fetched_value_is_served_while_fresh
        {Data} key (data : Data) now later cache :
  (forall c, cache !! key = Some c -> 300000 <= now - timestamp c) ->
  later - now < 300000 ->
  let cache1 := <[key := mkCacheRecord data now]> cache in
  cachedFetch key (Resolved data) now cache = (Resolved data, cache1) /\
  forall other, cachedFetch key other later cache1 = (Resolved data, cache1).
Proof.
  intros Hstale Hfresh. cbn zeta. split.
  - unfold cachedFetch. destruct (cache !! key) as [c|] eqn:Hc; [|reflexivity].
    specialize (Hstale c eq_refl).
    destruct (Z.ltb_spec (now - timestamp c) cacheDuration) as [Hlt|Hge];
      [|reflexivity]. unfold cacheDuration in Hlt. lia.
  - intros other. unfold cachedFetch. rewrite lookup_insert_eq. cbn.
    destruct (Z.ltb_spec (later - now) cacheDuration) as [Hlt|Hge];
      [reflexivity|]. unfold cacheDuration in Hge. lia.
Qed.

Lemma fetched_value_is_served_while_fresh_witness :
  let cache1 := <[ "trending_10" := mkCacheRecord [1; 2; 3] 1000 ]> ∅ in
  cachedFetch "trending_10" (Resolved [1; 2; 3]) 1000 ∅ = (Resolved [1; 2; 3], cache1) /\
  forall other, cachedFetch "trending_10" other 300999 cache1
                = (Resolved [1; 2; 3], cache1).
Proof.
  apply (fetched_value_is_served_while_fresh "trending_10" [1; 2; 3] 1000 300999 ∅).
  - intros c Hc. rewrite lookup_empty in Hc. discriminate.
  - lia.
Defined.

(** X30: a failed refetch falls back to the stale entry and touches
    nothing. When the cache holds no fresh entry for a key and the fetch
    function rejects, cachedFetch resolves with the data of the stale entry
    if there is one, and rejects with the function's error if there is none;
    either way the cache is left as it was, so a stale entry keeps its old
    timestamp and the next call fetches again. *)
Theorem failed_refetch_falls_back_to_stale
        {Data} key e now (cache : gmap string (CacheRecord Data)) :
  (forall c, cache !! key = Some c -> 300000 <= now - timestamp c) ->
  cachedFetch key (Rejected e) now cache =
  (match cache !! key with
   | Some c => Resolved (cached_data c)
   | None => Rejected e
   end, cache).
Proof.
  intros Hstale. unfold cachedFetch.
  destruct (cache !! key) as [c|] eqn:Hc; [|reflexivity].
  specialize (Hstale c eq_refl).
  destruct (Z.ltb_spec (now - timestamp c) cacheDuration) as [Hlt|Hge];
    [|reflexivity]. unfold cacheDuration in Hlt. lia.
Qed.

Lemma failed_refetch_falls_back_to_stale_witness :
  cachedFetch "trending_10" (Rejected TypeError) 400000
              (<[ "trending_10" := mkCacheRecord [1; 2; 3] 1000 ]> ∅) =
  (match (<[ "trending_10" := mkCacheRecord [1; 2; 3] 1000 ]> ∅
          : gmap string (CacheRecord (list Z))) !! "trending_10" with
   | Some c => Resolved (cached_data c)
   | None => Rejected TypeError
   end, <[ "trending_10" := mkCacheRecord [1; 2; 3] 1000 ]> ∅).
Proof.
  apply (failed_refetch_falls_back_to_stale "trending_10" TypeError 400000
           (<[ "trending_10" := mkCacheRecord [1; 2; 3] 1000 ]> ∅)).
  intros c Hc. rewrite lookup_insert_eq in Hc. injection Hc as <-. cbn. lia.
Defined.
